(** * The SRS structural validator ([validate_srs.py]), embedded and verified

    The development follows [skills/write-srs-29148/scripts/validate_srs.py].

    - Python [str] values are [string]s whose characters are read as the code
      points 0..255; the character classes of [re] ([\w], [\d], [\s]),
      [str.lower] and [str.splitlines] are tabulated for that range.
    - A [Path] carries its [name] and what the file system holds under it;
      [read_text] either yields the decoded text or raises.
    - Exceptions are values of [exn], threaded through the [result] monad.
    - [print] appends one line to the standard output, a [list string]. *)

From Stdlib Require Import ZArith String Ascii List DecimalString.
From stdpp Require Import gmap strings list sorting.
Import ListNotations.

(* ===================================================================== *)
(** * Part I: the model                                                   *)
(* ===================================================================== *)

(** ** Characters *)

Definition code (c : ascii) : N := N_of_ascii c.

Definition in_range (lo hi : N) (c : ascii) : bool :=
  ((lo <=? code c) && (code c <=? hi))%N.

(** [\d]: the decimal digits. *)
Definition is_digit (c : ascii) : bool := in_range 48 57 c.

(** [str.isalnum] on the code points below 256. *)
Definition isalnum (c : ascii) : bool :=
  in_range 48 57 c || in_range 65 90 c || in_range 97 122 c
  || in_range 170 170 c || in_range 178 179 c || in_range 181 181 c
  || in_range 185 186 c || in_range 188 190 c || in_range 192 214 c
  || in_range 216 246 c || in_range 248 255 c.

(** [\w]: alphanumeric or underscore. *)
Definition is_word (c : ascii) : bool := isalnum c || Ascii.eqb c "_".

(** [\s]. *)
Definition is_space (c : ascii) : bool :=
  in_range 9 13 c || in_range 28 32 c || in_range 133 133 c
  || in_range 160 160 c.

(** The characters at which [str.splitlines] breaks a line. *)
Definition is_linebreak (c : ascii) : bool :=
  in_range 10 13 c || in_range 28 30 c || in_range 133 133 c.

(** [str.lower] on one character. *)
Definition lower_char (c : ascii) : ascii :=
  if in_range 65 90 c || in_range 192 214 c || in_range 216 222 c
  then ascii_of_N (code c + 32)
  else c.

(** ** Strings *)

Fixpoint lower (s : string) : string :=
  match s with
  | EmptyString => EmptyString
  | String c s' => String (lower_char c) (lower s')
  end.

(** [s.startswith(p)]. *)
Definition startswith (s p : string) : bool := String.prefix p s.

(** [sep.join(l)]. *)
Definition join (sep : string) (l : list string) : string := String.concat sep l.

(** [str(n)] for a non-negative [int] and for any [int]. *)
Definition str_nat (n : nat) : string := NilEmpty.string_of_uint (Nat.to_uint n).
Definition str_int (z : Z) : string := NilEmpty.string_of_int (Z.to_int z).

(** [text.splitlines()]: [cur] is the line read so far.  A carriage return
    directly followed by a line feed is one break; the last line is kept
    only when it is not empty. *)
Fixpoint splitlines_from (cur : string) (s : string) : list string :=
  match s with
  | EmptyString => match cur with EmptyString => [] | _ => [cur] end
  | String c s' =>
      if is_linebreak c then
        match s' with
        | String c' s'' =>
            if Ascii.eqb c "013" && Ascii.eqb c' "010"
            then cur :: splitlines_from EmptyString s''
            else cur :: splitlines_from EmptyString s'
        | EmptyString => [cur]
        end
      else splitlines_from (cur +:+ String c EmptyString) s'
  end.

Definition splitlines (text : string) : list string :=
  splitlines_from EmptyString text.

(** [s.rfind(c)] for a single character. *)
Fixpoint rfind (c : ascii) (s : string) : option nat :=
  match s with
  | EmptyString => None
  | String a s' =>
      match rfind c s' with
      | Some i => Some (S i)
      | None => if Ascii.eqb a c then Some 0 else None
      end
  end.

(** [s.split(sep, maxsplit=1)[0]] for a single-character separator. *)
Fixpoint split_head (sep : ascii) (s : string) : string :=
  match s with
  | EmptyString => EmptyString
  | String a s' =>
      if Ascii.eqb a sep then EmptyString else String a (split_head sep s')
  end.

(** [enumerate(l, start)]. *)
Fixpoint enumerate {A} (start : nat) (l : list A) : list (nat * A) :=
  match l with
  | [] => []
  | x :: l' => (start, x) :: enumerate (S start) l'
  end.

(** ** A matcher for the regular expressions of the script

    A position in the subject is the character before it (if any) and the
    text from it on.  Each atom of a pattern maps a position to the position
    after it, or fails. *)

Definition pos : Type := option ascii * string.

Definition peek (p : pos) : option ascii :=
  match p.2 with
  | EmptyString => None
  | String c _ => Some c
  end.

Definition word_at (o : option ascii) : bool :=
  match o with
  | Some c => is_word c
  | None => false
  end.

(** [\b]: exactly one side of the position is a word character. *)
Definition wb (p : pos) : option pos :=
  if xorb (word_at p.1) (word_at (peek p)) then Some p else None.

(** One character accepted by [ok]. *)
Definition char_if (ok : ascii → bool) (p : pos) : option pos :=
  match p.2 with
  | String c s' => if ok c then Some (Some c, s') else None
  | EmptyString => None
  end.

(** One pattern after another. *)
Definition and_then (a b : pos → option pos) (p : pos) : option pos :=
  match a p with
  | Some q => b q
  | None => None
  end.

Infix ">=>" := and_then (at level 61, left associativity).

(** A literal; with [ci] as under [re.IGNORECASE]. *)
Fixpoint lit_gen (ci : bool) (w : string) : pos → option pos :=
  match w with
  | EmptyString => Some
  | String a w' =>
      char_if (λ c, if ci then Ascii.eqb (lower_char c) (lower_char a)
                    else Ascii.eqb c a)
      >=> lit_gen ci w'
  end.

Definition lit : string → pos → option pos := lit_gen false.
Definition lit_i : string → pos → option pos := lit_gen true.

(** [\d]. *)
Definition digit : pos → option pos := char_if is_digit.

(** [(a|b|...)] followed by [k]: the first alternative after which the rest
    of the pattern matches. *)
Fixpoint alt (alts : list (pos → option pos)) (k : pos → option pos)
    (p : pos) : option pos :=
  match alts with
  | [] => None
  | a :: alts' =>
      match (a >=> k) p with
      | Some q => Some q
      | None => alt alts' k p
      end
  end.

(** [\s*]: greedy.  In the script it is followed by a character that is not
    white space, so giving back white space never helps a match. *)
Fixpoint spaces_from (prev : option ascii) (s : string) : pos :=
  match s with
  | String c s' => if is_space c then spaces_from (Some c) s' else (prev, s)
  | EmptyString => (prev, s)
  end.

Definition spaces (p : pos) : option pos := Some (spaces_from p.1 p.2).

(** [^] under [re.MULTILINE]: the start of the text or just after a line feed. *)
Definition bol (p : pos) : option pos :=
  match p.1 with
  | None => Some p
  | Some c => if Ascii.eqb c "010" then Some p else None
  end.

(** The text a match consumed, [m.group(0)]. *)
Definition group0 (s : string) (q : pos) : string :=
  substring 0 (String.length s - String.length q.2) s.

(** [pattern.search(text)] is not [None]: some position matches. *)
Fixpoint search_from (m : pos → option pos) (prev : option ascii) (s : string)
    : bool :=
  match m (prev, s) with
  | Some _ => true
  | None =>
      match s with
      | EmptyString => false
      | String c s' => search_from m (Some c) s'
      end
  end.

Definition search (m : pos → option pos) (text : string) : bool :=
  search_from m None text.

(** [pattern.finditer(text)], as the list of [group(0)]s, left to right; the
    matches do not overlap: after a match the scan resumes at its end ([skip]
    counts the characters still to pass over).  The patterns of the script
    match no empty text. *)
Fixpoint finditer_from (m : pos → option pos) (skip : nat)
    (prev : option ascii) (s : string) : list string :=
  match s with
  | EmptyString => []
  | String c s' =>
      match skip with
      | S k => finditer_from m k (Some c) s'
      | O =>
          match m (prev, s) with
          | Some q =>
              group0 s q
              :: finditer_from m (String.length (group0 s q) - 1) (Some c) s'
          | None => finditer_from m 0 (Some c) s'
          end
      end
  end.

Definition finditer (m : pos → option pos) (text : string) : list string :=
  finditer_from m 0 None text.

(** [needle in text]. *)
Definition str_in (needle text : string) : bool := search (lit needle) text.

(** ** Exceptions *)

(** What the script can raise: [read_text] failing on a file (an [OSError]
    or a [UnicodeDecodeError]) and a failed dictionary lookup. *)
Inductive exn : Type :=
  | ReadError (file : string)
  | KeyError (key : string).

Inductive result (A : Type) : Type :=
  | Ok (a : A)
  | Raise (e : exn).

Arguments Ok {A} a.
Arguments Raise {A} e.

Global Instance result_ret : MRet result := λ A, Ok.
Global Instance result_bind : MBind result := λ A B f m,
  match m with
  | Ok a => f a
  | Raise e => Raise e
  end.

(** A [for] loop over [l] whose body updates the loop state [s] and may
    raise. *)
Fixpoint for_each {A S : Type} (l : list A) (body : S → A → result S) (s : S)
    : result S :=
  match l with
  | [] => Ok s
  | x :: l' => s' ← body s x; for_each l' body s'
  end.

(** ** Paths and the file system *)

(** What a directory entry is: a regular file, whose text [read_text] returns
    when it can be read and decoded, or something else (a sub-directory, a
    socket, ...). *)
Inductive node : Type :=
  | RegularFile (content : option string)
  | NotRegular.

Record Path : Type := { name : string; node_of : node }.

Global Instance node_eq_dec : EqDecision node.
Proof. solve_decision. Defined.
Global Instance Path_eq_dec : EqDecision Path.
Proof. solve_decision. Defined.

Definition is_file (p : Path) : bool :=
  match node_of p with
  | RegularFile _ => true
  | NotRegular => false
  end.

Definition read_text (p : Path) : result string :=
  match node_of p with
  | RegularFile (Some text) => Ok text
  | _ => Raise (ReadError (name p))
  end.

(** [path.suffix]: from the last dot of the name on, when that dot is
    neither the first nor the last character. *)
Definition suffix (p : Path) : string :=
  let nm := name p in
  match rfind "." nm with
  | Some i =>
      if (0 <? i) && (i <? String.length nm - 1)
      then substring i (String.length nm - i) nm
      else ""
  | None => ""
  end.

(** Paths of one directory compare by their names. *)
Definition path_le (p q : Path) : Prop := String.le (name p) (name q).

Global Instance path_le_dec : RelDecision path_le.
Proof. intros p q. unfold path_le. apply _. Defined.

Global Instance path_le_trans : Transitive path_le.
Proof. intros p q r. unfold path_le. apply transitivity. Qed.

Global Instance path_le_total : Total path_le.
Proof. intros p q. unfold path_le. apply total, _. Qed.

(** What the command-line argument names. *)
Inductive fs_object : Type :=
  | Missing
  | NotADirectory
  | Directory (entries : list Path).

Definition exists_ (o : fs_object) : bool :=
  match o with
  | Missing => false
  | _ => true
  end.

Definition is_dir (o : fs_object) : bool :=
  match o with
  | Directory _ => true
  | _ => false
  end.

(** [spec_dir.iterdir()], in the order the operating system lists them. *)
Definition iterdir (o : fs_object) : list Path :=
  match o with
  | Directory entries => entries
  | _ => []
  end.

(** ** The tables of the script *)

Definition nl : string := String "010" EmptyString.

Definition REQ_ID_CATEGORIES : list string := ["IR"; "FR"; "DR"; "NFR"; "CR"].

(** [\b(IR|FR|DR|NFR|CR)-\d{3}\b] *)
Definition REQ_ID_PATTERN : pos → option pos :=
  wb >=> alt (map lit REQ_ID_CATEGORIES)
             (lit "-" >=> digit >=> digit >=> digit >=> wb).

Definition REQUIRED_SECTIONS : list (string * string) :=
  [ ("00", "Introduction");
    ("01", "Product perspective");
    ("02", "External interfaces");
    ("03", "Functional requirements");
    ("04", "Data requirements");
    ("05", "Non-functional requirements");
    ("06", "Constraints");
    ("07", "Change control") ].

Definition CATEGORY_PREFIX : gmap string string :=
  list_to_map
    [ ("IR", "02"); ("FR", "03"); ("DR", "04"); ("NFR", "05"); ("CR", "06") ].

Definition REQUIRED_DEFINITIONS : list string :=
  ["SRS"; "RTM"; "MoSCoW"; "IADT"; "FR"; "NFR"; "DR"; "IR"; "CR"].

Definition REQUIRED_META_FIELDS : list string :=
  ["Priority:"; "Verify:"; "Release:"].

Record Finding : Type := mkFinding { level : string; message : string }.

Global Instance Finding_eq_dec : EqDecision Finding.
Proof. solve_decision. Defined.

(** ** Loading *)

Definition load_markdown_files (spec_dir : fs_object) : list Path :=
  merge_sort path_le
    (List.filter (λ path, is_file path && String.eqb (lower (suffix path)) ".md")
       (iterdir spec_dir)).

(** ** The checks *)

Definition validate_required_sections (files : list Path) : list Finding :=
  let names := map name files in
  fold_left
    (λ findings '(prefix, title),
       if negb (existsb (λ nm, startswith nm prefix) names)
       then findings
            ++ [mkFinding "error"
                  ("Missing section " +:+ prefix +:+ " (" +:+ title +:+ ").")]
       else findings)
    REQUIRED_SECTIONS [].

Definition line_limit_message (nm : string) (line_count : nat) (max_lines : Z)
    : string :=
  nm +:+ " has " +:+ str_nat line_count +:+ " lines (max " +:+ str_int max_lines
  +:+ "); split this section.".

(** The body of the loop of [validate_line_limits]. *)
Definition line_limit_body (max_lines : Z) (findings : list Finding)
    (path : Path) : result (list Finding) :=
  text ← read_text path;
  let line_count := length (splitlines text) in
  if startswith (lower (name path)) "rtm" then Ok findings
  else if (max_lines <? Z.of_nat line_count)%Z
  then Ok (findings
           ++ [mkFinding "error"
                 (line_limit_message (name path) line_count max_lines)])
  else Ok findings.

Definition validate_line_limits (files : list Path) (max_lines : Z)
    : result (list Finding) :=
  for_each files (line_limit_body max_lines) [].

(** [\b<term>\b]; the terms of the script are alphanumeric, so [re.escape]
    leaves them as they are. *)
Definition word_pattern (term : string) : pos → option pos :=
  wb >=> lit term >=> wb.

Definition missing_definition_message (nm term : string) : string :=
  nm +:+ " is missing required definition or acronym: " +:+ term +:+ ".".

Definition validate_definitions (files : list Path) : result (list Finding) :=
  match List.find (λ p, startswith (name p) "00") files with
  | None => Ok []
  | Some intro =>
      text ← read_text intro;
      Ok (fold_left
            (λ findings term,
               if negb (search (word_pattern term) text)
               then findings
                    ++ [mkFinding "error"
                          (missing_definition_message (name intro) term)]
               else findings)
            REQUIRED_DEFINITIONS [])
  end.

(** [^\|\s*0\.1\s*\|] under [re.MULTILINE] *)
Definition INITIAL_VERSION_ROW : pos → option pos :=
  bol >=> lit "|" >=> spaces >=> lit "0.1" >=> spaces >=> lit "|".

Definition validate_change_control (files : list Path)
    : result (list Finding) :=
  match List.find (λ p, startswith (name p) "07") files with
  | None => Ok []
  | Some change_file =>
      text ← read_text change_file;
      let findings := [] in
      let findings :=
        if negb (str_in "| Version | Date | Author | Changes |" text)
        then findings
             ++ [mkFinding "error"
                   (name change_file
                    +:+ " is missing the required version history table header.")]
        else findings in
      let findings :=
        if negb (search INITIAL_VERSION_ROW text)
        then findings
             ++ [mkFinding "warning"
                   (name change_file
                    +:+ " does not include an initial 0.1 version row.")]
        else findings in
      Ok findings
  end.

Definition validate_rtm (files : list Path) : result (list Finding) :=
  let rtm_files :=
    List.filter (λ p, startswith (lower (name p)) "rtm") files in
  for_each rtm_files
    (λ findings path,
       text ← read_text path;
       let required_header :=
         "| Req ID | Requirement | Source/Need | Design Ref | Test Case | Status |" in
       if negb (str_in required_header text)
       then Ok (findings
                ++ [mkFinding "warning"
                      (name path +:+ " is missing the recommended RTM header row.")])
       else Ok findings)
    [].

(** *** Requirement quality *)

Definition duplicate_message (req nm : string) (line_no : nat)
    (original_name : string) (original_line : nat) : string :=
  "Duplicate requirement ID " +:+ req +:+ " in " +:+ nm +:+ ":"
  +:+ str_nat line_no +:+ "; " +:+ "already defined at " +:+ original_name
  +:+ ":" +:+ str_nat original_line +:+ ".".

Definition prefix_message (req nm expected_prefix category : string) : string :=
  req +:+ " appears in " +:+ nm +:+ "; expected section prefix "
  +:+ expected_prefix +:+ " for " +:+ category +:+ " requirements.".

Definition modality_message (req_id nm : string) (line_no : nat) : string :=
  req_id +:+ " in " +:+ nm +:+ ":" +:+ str_nat line_no
  +:+ " does not contain shall/should/may.".

Definition meta_message (req_id nm : string) (line_no : nat) (field : string)
    : string :=
  req_id +:+ " in " +:+ nm +:+ ":" +:+ str_nat line_no +:+ " is missing '"
  +:+ field +:+ "'.".

Definition coverage_message (prefix : string) : string :=
  "Section " +:+ prefix +:+ " has no requirement IDs detected.".

(** The state of the scanning loops: the findings so far, [seen_ids] and the
    [id_lines] of the current file. *)
Definition scan_state : Type :=
  list Finding * gmap string (Path * nat) * list (nat * string).

(** The body of the loop over the matches of one line. *)
Definition scan_match (path : Path) (line_no : nat) (st : scan_state)
    (req : string) : result scan_state :=
  let '(findings, seen_ids, id_lines) := st in
  let id_lines := id_lines ++ [(line_no, req)] in
  let '(findings, seen_ids) :=
    match seen_ids !! req with
    | Some (original_path, original_line) =>
        (findings
         ++ [mkFinding "error"
               (duplicate_message req (name path) line_no
                  (name original_path) original_line)],
         seen_ids)
    | None => (findings, <[req := (path, line_no)]> seen_ids)
    end in
  let category := split_head "-" req in
  match CATEGORY_PREFIX !! category with
  | None => Raise (KeyError category)
  | Some expected_prefix =>
      if negb (startswith (name path) expected_prefix)
      then Ok (findings
               ++ [mkFinding "warning"
                     (prefix_message req (name path) expected_prefix category)],
               seen_ids, id_lines)
      else Ok (findings, seen_ids, id_lines)
  end.

(** The body of the loop over the lines of one file. *)
Definition scan_line (path : Path) (st : scan_state) (entry : nat * string)
    : result scan_state :=
  let '(line_no, line) := entry in
  for_each (finditer REQ_ID_PATTERN line) (scan_match path line_no) st.

(** [\b(shall|should|may)\b] under [re.IGNORECASE] *)
Definition MODALITY_PATTERN : pos → option pos :=
  wb >=> alt (map lit_i ["shall"; "should"; "may"]) wb.

(** [lines[start:end]] for indices that are not negative. *)
Definition slice {A} (l : list A) (start end_ : nat) : list A :=
  take (end_ - start) (drop start l).

(** The bounds of the block of the occurrence at [index] of [id_lines]:
    [start], and [end] as it stands after the [if]. *)
Definition block_start (line_no : nat) : nat := line_no - 1.

Definition block_end (lines : list string) (id_lines : list (nat * string))
    (index : nat) : nat :=
  match id_lines !! (index + 1) with
  | Some (next_line, _) => next_line - 1
  | None => length lines
  end.

Definition block_of (lines : list string) (id_lines : list (nat * string))
    (index line_no : nat) : string :=
  let start := block_start line_no in
  let end_ := block_end lines id_lines index in
  join nl (slice lines start end_).

(** The two checks on one block. *)
Definition check_block (path : Path) (line_no : nat) (req_id block : string)
    (findings : list Finding) : list Finding :=
  let findings :=
    if negb (search MODALITY_PATTERN block)
    then findings
         ++ [mkFinding "error" (modality_message req_id (name path) line_no)]
    else findings in
  fold_left
    (λ findings field,
       if negb (str_in field block)
       then findings
            ++ [mkFinding "warning"
                  (meta_message req_id (name path) line_no field)]
       else findings)
    REQUIRED_META_FIELDS findings.

(** The loop over the occurrences of one file. *)
Definition check_blocks (path : Path) (lines : list string)
    (id_lines : list (nat * string)) (findings : list Finding) : list Finding :=
  fold_left
    (λ findings '(index, (line_no, req_id)),
       check_block path line_no req_id (block_of lines id_lines index line_no)
         findings)
    (enumerate 0 id_lines) findings.

(** The body of the loop over the files. *)
Definition requirements_body
    (st : list Finding * gmap string (Path * nat)) (path : Path)
    : result (list Finding * gmap string (Path * nat)) :=
  let '(findings, seen_ids) := st in
  text ← read_text path;
  let lines := splitlines text in
  '(findings, seen_ids, id_lines) ←
    for_each (enumerate 1 lines) (scan_line path) (findings, seen_ids, []);
  Ok (check_blocks path lines id_lines findings, seen_ids).

(** [any(REQ_ID_PATTERN.search(p.read_text()) for p in section_files)]: the
    files are read one by one until one has a match. *)
Fixpoint any_has_req_id (section_files : list Path) : result bool :=
  match section_files with
  | [] => Ok false
  | p :: rest =>
      text ← read_text p;
      if search REQ_ID_PATTERN text then Ok true else any_has_req_id rest
  end.

(** The body of the loop over the category prefixes. *)
Definition coverage_body (files : list Path) (findings : list Finding)
    (prefix : string) : result (list Finding) :=
  let section_files := List.filter (λ p, startswith (name p) prefix) files in
  match section_files with
  | [] => Ok findings
  | _ =>
      found ← any_has_req_id section_files;
      if negb found
      then Ok (findings ++ [mkFinding "warning" (coverage_message prefix)])
      else Ok findings
  end.

Definition validate_requirements (files : list Path) : result (list Finding) :=
  '(findings, seen_ids) ← for_each files requirements_body ([], ∅);
  for_each ["02"; "03"; "04"; "05"; "06"] (coverage_body files) findings.

(** ** The entry point *)

Record Namespace : Type := { spec_dir : string; max_lines : Z }.

(** The standard output, one printed line per element, and the value
    returned. *)
Definition outcome : Type := list string * Z.

Definition main (args : Namespace) (target : fs_object) : result outcome :=
  if negb (exists_ target)
  then Ok (["ERROR: Directory does not exist: " +:+ spec_dir args], 1%Z)
  else if negb (is_dir target)
  then Ok (["ERROR: Not a directory: " +:+ spec_dir args], 1%Z)
  else
    let files := load_markdown_files target in
    match files with
    | [] => Ok (["ERROR: No markdown files found in " +:+ spec_dir args], 1%Z)
    | _ =>
        let findings := [] in
        let findings := findings ++ validate_required_sections files in
        more ← validate_line_limits files (max_lines args);
        let findings := findings ++ more in
        more ← validate_definitions files;
        let findings := findings ++ more in
        more ← validate_change_control files;
        let findings := findings ++ more in
        more ← validate_rtm files;
        let findings := findings ++ more in
        more ← validate_requirements files;
        let findings := findings ++ more in
        let errors :=
          List.filter (λ f, String.eqb (level f) "error") findings in
        let warnings :=
          List.filter (λ f, String.eqb (level f) "warning") findings in
        match errors with
        | _ :: _ =>
            Ok (["SRS validation failed."]
                ++ map (λ f, "ERROR: " +:+ message f) errors
                ++ map (λ f, "WARN: " +:+ message f) warnings,
                1%Z)
        | [] =>
            Ok (["SRS validation passed."]
                ++ map (λ f, "WARN: " +:+ message f) warnings
                ++ ["Checked " +:+ str_nat (length files)
                    +:+ " markdown files in " +:+ spec_dir args +:+ "."],
                0%Z)
        end
    end.

(** What the process exits with under [sys.exit(main())]: the value [main]
    returns, or 1 when an exception leaves [main] (the interpreter prints the
    traceback to the standard error and exits with status 1). *)
Definition exit_status (r : result outcome) : Z :=
  match r with
  | Ok (_, status) => status
  | Raise _ => 1%Z
  end.

(** What the process wrote to the standard output. *)
Definition stdout (r : result outcome) : list string :=
  match r with
  | Ok (out, _) => out
  | Raise _ => []
  end.

(* ===================================================================== *)
(** * Part II: what the checks are expected to produce                    *)
(* ===================================================================== *)

(** ** Documents *)

Definition readable (p : Path) : Prop :=
  ∃ text, node_of p = RegularFile (Some text).

Global Instance readable_dec p : Decision (readable p).
Proof.
  unfold readable. destruct (node_of p) as [[text|]|].
  - left. by exists text.
  - right. intros [text ?]. discriminate.
  - right. intros [text ?]. discriminate.
Defined.

(** The text of a readable file. *)
Definition text_of (p : Path) : string :=
  match node_of p with
  | RegularFile (Some text) => text
  | _ => EmptyString
  end.

Definition line_count (p : Path) : nat := length (splitlines (text_of p)).

(** ** Occurrences of words and sub-strings, as the specification words them *)

Fixpoint last_char (s : string) : option ascii :=
  match s with
  | EmptyString => None
  | String c EmptyString => Some c
  | String _ s' => last_char s'
  end.

Definition first_char (s : string) : option ascii :=
  match s with
  | EmptyString => None
  | String c _ => Some c
  end.

(** The character before the position reached after reading [pre]. *)
Definition prev_after (prev : option ascii) (pre : string) : option ascii :=
  match last_char pre with
  | Some c => Some c
  | None => prev
  end.

(** How a literal matches: the text read differs from it at most in case. *)
Definition reads (ci : bool) (w w' : string) : Prop :=
  if ci then lower w' = lower w else w' = w.

(** [needle] is a sub-string of [text]. *)
Definition substring_of (needle text : string) : Prop :=
  ∃ pre post, text = pre +:+ needle +:+ post.

(** [term] occurs in [text] with no word character directly before or
    after it. *)
Definition whole_word_in (term text : string) : Prop :=
  ∃ pre post,
    text = pre +:+ term +:+ post
    ∧ word_at (last_char pre) = false
    ∧ word_at (first_char post) = false.


(** ** Requirement identifiers *)

(** The shape of what [REQ_ID_PATTERN] matches: a category, a hyphen, three
    digits. *)
Definition well_formed_id (r : string) : Prop :=
  ∃ category d1 d2 d3,
    category ∈ REQ_ID_CATEGORIES
    ∧ is_digit d1 = true ∧ is_digit d2 = true ∧ is_digit d3 = true
    ∧ r = category
          +:+ String "-" (String d1 (String d2 (String d3 EmptyString))).

(** The category of an identifier and the section prefix the specification
    maps it to. *)
Definition category_of (req : string) : string := split_head "-" req.

Definition section_prefix_of (category : string) : string :=
  if String.eqb category "IR" then "02"
  else if String.eqb category "FR" then "03"
  else if String.eqb category "DR" then "04"
  else if String.eqb category "NFR" then "05"
  else if String.eqb category "CR" then "06"
  else EmptyString.

(** One occurrence of an identifier: the file, the 1-based line, the text
    matched. *)
Record occurrence : Type :=
  { occ_path : Path; occ_line : nat; occ_req : string }.

(** The [id_lines] of a file: its matches by line, then left to right. *)
Definition id_lines_from (start : nat) (lines : list string)
    : list (nat * string) :=
  flat_map
    (λ '(line_no, line), map (pair line_no) (finditer REQ_ID_PATTERN line))
    (enumerate start lines).

Definition id_lines_of (lines : list string) : list (nat * string) :=
  id_lines_from 1 lines.

Definition mk_occurrence (path : Path) (entry : nat * string) : occurrence :=
  {| occ_path := path; occ_line := entry.1; occ_req := entry.2 |}.

(** All occurrences in scan order: by file, then line, then left to right. *)
Definition occurrences (files : list Path) : list occurrence :=
  flat_map
    (λ p, map (mk_occurrence p) (id_lines_of (splitlines (text_of p))))
    files.

Definition occurrences_of (req : string) (files : list Path)
    : list occurrence :=
  List.filter (λ o, String.eqb (occ_req o) req) (occurrences files).

(** ** Findings by kind *)

Definition duplicate_finding (o original : occurrence) : Finding :=
  mkFinding "error"
    (duplicate_message (occ_req o) (name (occ_path o)) (occ_line o)
       (name (occ_path original)) (occ_line original)).

Definition prefix_finding (o : occurrence) : Finding :=
  mkFinding "warning"
    (prefix_message (occ_req o) (name (occ_path o))
       (section_prefix_of (category_of (occ_req o)))
       (category_of (occ_req o))).

Definition modality_finding (path : Path) (line_no : nat) (req_id : string)
    : Finding :=
  mkFinding "error" (modality_message req_id (name path) line_no).

Definition meta_finding (path : Path) (line_no : nat) (req_id field : string)
    : Finding :=
  mkFinding "warning" (meta_message req_id (name path) line_no field).

(** A finding is the duplicate error of an occurrence of [req]. *)
Definition is_duplicate_error (req : string) (f : Finding) : bool :=
  String.eqb (level f) "error"
  && String.prefix ("Duplicate requirement ID " +:+ req +:+ " in ") (message f).

(** A finding is the section-prefix warning of an occurrence of [req]. *)
Definition is_prefix_warning (req : string) (f : Finding) : bool :=
  String.eqb (level f) "warning"
  && String.prefix (req +:+ " appears in ") (message f).

(** The occurrence lies in a file whose name lacks the prefix of its
    category. *)
Definition misplaced (o : occurrence) : bool :=
  negb (startswith (name (occ_path o))
          (section_prefix_of (category_of (occ_req o)))).

(** ** The findings of [validate_requirements], loop by loop *)

(** What one match adds to the findings, and to [seen_ids]. *)
Definition scan_emit (seen_ids : gmap string (Path * nat)) (path : Path)
    (entry : nat * string) : list Finding :=
  let o := mk_occurrence path entry in
  match seen_ids !! entry.2 with
  | Some (original_path, original_line) =>
      [duplicate_finding o
         {| occ_path := original_path; occ_line := original_line;
            occ_req := entry.2 |}]
  | None => []
  end
  ++ (if misplaced o then [prefix_finding o] else []).

Definition register (path : Path) (seen_ids : gmap string (Path * nat))
    (entry : nat * string) : gmap string (Path * nat) :=
  match seen_ids !! entry.2 with
  | Some _ => seen_ids
  | None => <[entry.2 := (path, entry.1)]> seen_ids
  end.

Fixpoint scan_emits (seen_ids : gmap string (Path * nat)) (path : Path)
    (id_lines : list (nat * string)) : list Finding :=
  match id_lines with
  | [] => []
  | entry :: rest =>
      scan_emit seen_ids path entry
      ++ scan_emits (register path seen_ids entry) path rest
  end.

Definition block_findings (path : Path) (line_no : nat)
    (req_id block : string) : list Finding :=
  (if search MODALITY_PATTERN block then []
   else [modality_finding path line_no req_id])
  ++ flat_map
       (λ field, if str_in field block then []
                 else [meta_finding path line_no req_id field])
       REQUIRED_META_FIELDS.

Definition block_emits (path : Path) (lines : list string)
    (id_lines : list (nat * string)) : list Finding :=
  flat_map
    (λ '(index, (line_no, req_id)),
       block_findings path line_no req_id
         (block_of lines id_lines index line_no))
    (enumerate 0 id_lines).

Definition file_emits (seen_ids : gmap string (Path * nat)) (path : Path)
    : list Finding :=
  let lines := splitlines (text_of path) in
  scan_emits seen_ids path (id_lines_of lines)
  ++ block_emits path lines (id_lines_of lines).

Definition file_seen (seen_ids : gmap string (Path * nat)) (path : Path)
    : gmap string (Path * nat) :=
  fold_left (register path) (id_lines_of (splitlines (text_of path))) seen_ids.

Fixpoint files_emits (seen_ids : gmap string (Path * nat))
    (files : list Path) : list Finding :=
  match files with
  | [] => []
  | path :: rest =>
      file_emits seen_ids path ++ files_emits (file_seen seen_ids path) rest
  end.

Definition coverage_emits (files : list Path) : list Finding :=
  flat_map
    (λ prefix,
       let section_files :=
         List.filter (λ p, startswith (name p) prefix) files in
       match section_files with
       | [] => []
       | _ =>
           if existsb (λ p, search REQ_ID_PATTERN (text_of p)) section_files
           then []
           else [mkFinding "warning" (coverage_message prefix)]
       end)
    ["02"; "03"; "04"; "05"; "06"].

(** ** The duplicate errors expected for one identifier *)

(** The definition site [seen_ids] holds for [req]. *)
Definition seen_origin (seen_ids : gmap string (Path * nat)) (req : string)
    : option occurrence :=
  match seen_ids !! req with
  | Some (original_path, original_line) =>
      Some {| occ_path := original_path; occ_line := original_line;
              occ_req := req |}
  | None => None
  end.

(** One error for each occurrence of the identifier but the first one ever,
    each naming that first one; [origin] is the first one when it came
    before [occs]. *)
Definition expected_duplicates (origin : option occurrence)
    (occs : list occurrence) : list Finding :=
  match origin with
  | Some original => map (λ o, duplicate_finding o original) occs
  | None =>
      match occs with
      | [] => []
      | first :: later => map (λ o, duplicate_finding o first) later
      end
  end.

Definition origin_after (origin : option occurrence) (occs : list occurrence)
    : option occurrence :=
  match origin with
  | Some original => Some original
  | None => head occs
  end.

(** ** The findings of the line-count check *)

Definition line_limit_findings (max_lines : Z) (p : Path) : list Finding :=
  if startswith (lower (name p)) "rtm" then []
  else if (max_lines <? Z.of_nat (line_count p))%Z
  then [mkFinding "error"
          (line_limit_message (name p) (line_count p) max_lines)]
  else [].

(** ** The pipeline of [main] *)

(** The findings [main] collects, check after check. *)
Definition collect_findings (files : list Path) (max_lines : Z)
    : result (list Finding) :=
  f2 ← validate_line_limits files max_lines;
  f3 ← validate_definitions files;
  f4 ← validate_change_control files;
  f5 ← validate_rtm files;
  f6 ← validate_requirements files;
  Ok (validate_required_sections files ++ f2 ++ f3 ++ f4 ++ f5 ++ f6).

Definition errors_of (findings : list Finding) : list Finding :=
  List.filter (λ f, String.eqb (level f) "error") findings.

Definition warnings_of (findings : list Finding) : list Finding :=
  List.filter (λ f, String.eqb (level f) "warning") findings.

Definition error_line (f : Finding) : string := "ERROR: " +:+ message f.
Definition warn_line (f : Finding) : string := "WARN: " +:+ message f.

Definition summary_line (files : list Path) (dir : string) : string :=
  "Checked " +:+ str_nat (length files) +:+ " markdown files in " +:+ dir
  +:+ ".".

(** What [main] prints and returns once the findings are collected. *)
Definition report (args : Namespace) (files : list Path)
    (findings : list Finding) : outcome :=
  match errors_of findings with
  | _ :: _ =>
      (["SRS validation failed."]
       ++ map error_line (errors_of findings)
       ++ map warn_line (warnings_of findings),
       1%Z)
  | [] =>
      (["SRS validation passed."]
       ++ map warn_line (warnings_of findings)
       ++ [summary_line files (spec_dir args)],
       0%Z)
  end.

(** The directory holds at least one markdown file. *)
Definition has_markdown (target : fs_object) : Prop :=
  ∃ p, p ∈ iterdir target ∧ is_file p = true ∧ lower (suffix p) = ".md".

(** The default of [--max-lines]. *)
Definition DEFAULT_MAX_LINES : Z := 150.

(** ** Sample directories *)

Definition regular_file (nm text : string) : Path :=
  {| name := nm; node_of := RegularFile (Some text) |}.

Definition unreadable_file (nm : string) : Path :=
  {| name := nm; node_of := RegularFile None |}.

(** [n] lines, each reading [line]. *)
Fixpoint repeat_line (n : nat) (line : string) : string :=
  match n with
  | O => EmptyString
  | S k => line +:+ nl +:+ repeat_line k line
  end.

Definition sample_args : Namespace :=
  {| spec_dir := "specs/demo"; max_lines := DEFAULT_MAX_LINES |}.

(** Two files of 300 lines each. *)
Definition sample_long_files : list Path :=
  [ regular_file "99-appendix.md" (repeat_line 300 "row");
    regular_file "rtm.md" (repeat_line 300 "row") ].

(** A directory with a file that cannot be read, listed out of order and
    beside entries that are no markdown files. *)
Definition sample_unreadable_dir : fs_object :=
  Directory
    [ unreadable_file "01-product.md";
      regular_file "00-intro.md" "SRS";
      regular_file "notes.txt" "FR-001";
      {| name := "drafts.md"; node_of := NotRegular |} ].

(** A directory whose only file fails the checks. *)
Definition sample_failing_dir : fs_object :=
  Directory [regular_file "03-functional.md" "FR-001: fast"].

Definition sample_requirement (req : string) : string :=
  req +:+ ": The system shall comply. Priority: High Verify: Test Release: 1.0"
  +:+ nl.

(** A directory that passes, with one warning. *)
Definition sample_passing_dir : fs_object :=
  Directory
    [ regular_file "07-change-control.md"
        ("| Version | Date | Author | Changes |" +:+ nl
         +:+ "| 0.1 | 2024-01-01 | A | Draft |" +:+ nl);
      regular_file "00-introduction.md"
        "Terms: SRS, RTM, MoSCoW, IADT, FR, NFR, DR, IR, CR.";
      regular_file "01-product.md" "Overview.";
      regular_file "02-interfaces.md" (sample_requirement "IR-001");
      regular_file "03-functional.md" (sample_requirement "FR-001");
      regular_file "04-data.md" (sample_requirement "DR-001");
      regular_file "05-quality.md" (sample_requirement "NFR-001");
      regular_file "06-constraints.md" (sample_requirement "CR-001");
      regular_file "RTM.md" "to be written" ].

(** Files with a repeated identifier, also in a file of another section,
    and with two identifiers on one line. *)
Definition sample_duplicate_files : list Path :=
  [ regular_file "03-functional.md"
      (sample_requirement "FR-001" +:+ "FR-001 and FR-002 may differ" +:+ nl);
    regular_file "05-quality.md" (sample_requirement "FR-001") ].

(** An introduction without the word RTM. *)
Definition sample_intro_files : list Path :=
  [ regular_file "00-intro.md" "SRS MoSCoW IADT FR NFR DR IR CR, no RTMs";
    regular_file "01-product.md" "RTM" ].

(** ** Further notions for the checks as a whole *)

(** Every character of [s] passes [ok]. *)
Fixpoint str_forallb (ok : ascii → bool) (s : string) : bool :=
  match s with
  | EmptyString => true
  | String c s' => ok c && str_forallb ok s'
  end.

(** [pre] ends where a line starts: it is empty or ends with a line feed. *)
Definition at_line_start (pre : string) : Prop :=
  last_char pre = None ∨ last_char pre = Some "010"%char.

(** A table row for version 0.1: at the start of a line a bar, white space,
    "0.1", white space, a bar. *)
Definition has_initial_version_row (text : string) : Prop :=
  ∃ pre ws1 ws2 post,
    text = pre +:+ "|" +:+ ws1 +:+ "0.1" +:+ ws2 +:+ "|" +:+ post
    ∧ at_line_start pre
    ∧ str_forallb is_space ws1 = true
    ∧ str_forallb is_space ws2 = true.

(** [text] holds a requirement identifier as a word of its own. *)
Definition has_req_id (text : string) : Prop :=
  ∃ pre r post,
    text = pre +:+ r +:+ post
    ∧ well_formed_id r
    ∧ word_at (last_char pre) = false
    ∧ word_at (first_char post) = false.

(** The two severities. *)
Definition level_ok (f : Finding) : Prop :=
  level f = "error" ∨ level f = "warning".

(** The place [seen_ids] holds for an identifier once all files are
    scanned: that of its first occurrence. *)
Definition first_site (req : string) (files : list Path)
    : option (Path * nat) :=
  (λ o, (occ_path o, occ_line o)) <$> head (occurrences_of req files).

(** A directory whose RTM lacks the header and whose other file cannot be
    read. *)
Definition sample_rtm_files : list Path :=
  [ unreadable_file "00-intro.md";
    regular_file "RTM-core.md" "| Req ID | Requirement |";
    regular_file "rtm.md"
      "| Req ID | Requirement | Source/Need | Design Ref | Test Case | Status |" ].

(** Files of sections 04 and 05: the first holds no identifier (four digits
    are no identifier), the second holds one of another category. *)
Definition sample_coverage_files : list Path :=
  [ regular_file "04-data.md" "see DR-0001 and XDR-001";
    regular_file "05-quality.md" (sample_requirement "FR-001") ].

(* ===================================================================== *)
(** * Part III: lemmas and theorems                                       *)
(* ===================================================================== *)

(** ** Reading and looping *)

Lemma bind_Ok {A B} (a : A) (f : A → result B) : Ok a ≫= f = f a.
Proof. reflexivity. Qed.

Lemma for_each_cons {A S} (x : A) (l : list A) (body : S → A → result S)
    (s : S) :
  for_each (x :: l) body s = body s x ≫= for_each l body.
Proof. reflexivity. Qed.


Lemma read_text_readable (p : Path) :
  readable p → read_text p = Ok (text_of p).
Proof.
  intros [text Hp]. unfold read_text, text_of. by rewrite Hp.
Qed.

Lemma read_text_unreadable (p : Path) :
  ¬ readable p → read_text p = Raise (ReadError (name p)).
Proof.
  intros Hp. unfold read_text.
  destruct (node_of p) as [[text|]|] eqn:E; try done.
  destruct Hp. by exists text.
Qed.

Lemma read_text_inv (p : Path) (text : string) :
  read_text p = Ok text → readable p ∧ text_of p = text.
Proof.
  unfold read_text, readable, text_of.
  destruct (node_of p) as [[t|]|]; intros [= <-]; eauto.
Qed.

(** A loop whose body only appends what [emit] says appends the
    concatenation. *)
Lemma for_each_emit {A} (emit : A → list Finding)
    (body : list Finding → A → result (list Finding)) (l : list A) :
  (∀ findings x, x ∈ l → body findings x = Ok (findings ++ emit x)) →
  ∀ findings, for_each l body findings = Ok (findings ++ flat_map emit l).
Proof.
  induction l as [|x l IH]; intros Hbody findings; simpl.
  - by rewrite app_nil_r.
  - rewrite Hbody by left. simpl. rewrite IH.
    + by rewrite <- app_assoc.
    + intros fs y Hy. apply Hbody. by right.
Qed.

(** The loop stops at the first element on which the body raises. *)
Lemma for_each_raise {A} (emit : A → list Finding)
    (body : list Finding → A → result (list Finding))
    (before : list A) (x : A) (after : list A) (e : exn) :
  (∀ findings y, y ∈ before → body findings y = Ok (findings ++ emit y)) →
  (∀ findings, body findings x = Raise e) →
  ∀ findings, for_each (before ++ x :: after) body findings = Raise e.
Proof.
  induction before as [|y before IH]; intros Hok Hraise findings; simpl.
  - by rewrite Hraise.
  - rewrite Hok by left. simpl. apply IH; [|done].
    intros fs z Hz. apply Hok. by right.
Qed.

Lemma fold_left_emit {A} (emit : A → list Finding)
    (body : list Finding → A → list Finding) (l : list A) :
  (∀ findings x, x ∈ l → body findings x = findings ++ emit x) →
  ∀ findings, fold_left body l findings = findings ++ flat_map emit l.
Proof.
  induction l as [|x l IH]; intros Hbody findings; simpl.
  - by rewrite app_nil_r.
  - rewrite Hbody by left. rewrite IH.
    + by rewrite <- app_assoc.
    + intros fs y Hy. apply Hbody. by right.
Qed.

(** ** The line-count check *)

Lemma line_limit_body_readable (max_lines : Z) (findings : list Finding)
    (p : Path) :
  readable p →
  line_limit_body max_lines findings p
  = Ok (findings ++ line_limit_findings max_lines p).
Proof.
  intros Hp. unfold line_limit_body, line_limit_findings, line_count.
  rewrite (read_text_readable p Hp). simpl.
  destruct (startswith (lower (name p)) "rtm"); [by rewrite app_nil_r|].
  destruct (max_lines <? _)%Z; [done|by rewrite app_nil_r].
Qed.

Lemma validate_line_limits_readable (files : list Path) (max_lines : Z) :
  Forall readable files →
  validate_line_limits files max_lines
  = Ok (flat_map (line_limit_findings max_lines) files).
Proof.
  intros Hall. unfold validate_line_limits.
  rewrite (for_each_emit (line_limit_findings max_lines)); [done|].
  intros findings p Hp. apply line_limit_body_readable.
  rewrite Forall_forall in Hall. by apply Hall.
Qed.

(** C7.  The line-count check produces, file by file and in order, nothing
    for a file whose lower-cased name starts with "rtm", and for any other
    file exactly one error when its line count exceeds the maximum, nothing
    otherwise. *)
Theorem C7_line_limits (files : list Path) (max_lines : Z) :
  Forall readable files →
  validate_line_limits files max_lines
  = Ok (flat_map
          (λ p, if startswith (lower (name p)) "rtm" then []
                else if (Z.of_nat (length (splitlines (text_of p))) >? max_lines)%Z
                then [mkFinding "error"
                        (name p +:+ " has "
                         +:+ str_nat (length (splitlines (text_of p)))
                         +:+ " lines (max " +:+ str_int max_lines
                         +:+ "); split this section.")]
                else [])
          files).
Proof.
  intros Hall. rewrite validate_line_limits_readable by done.
  f_equal. apply flat_map_ext. intros p.
  unfold line_limit_findings, line_count, line_limit_message.
  by rewrite Z.gtb_ltb.
Qed.

(** ** Strings *)

Lemma str_app_cons (a : ascii) (s t : string) :
  String a s +:+ t = String a (s +:+ t).
Proof. reflexivity. Qed.

Lemma str_app_nil_l (s : string) : EmptyString +:+ s = s.
Proof. reflexivity. Qed.

Lemma str_app_nil_r (s : string) : s +:+ EmptyString = s.
Proof. induction s as [|a s IH]; [done|]. by rewrite str_app_cons, IH. Qed.

Lemma str_app_assoc (s t u : string) : (s +:+ t) +:+ u = s +:+ (t +:+ u).
Proof.
  induction s as [|a s IH]; [done|]. by rewrite !str_app_cons, IH.
Qed.

Lemma str_app_length (s t : string) :
  String.length (s +:+ t) = String.length s + String.length t.
Proof.
  induction s as [|a s IH]; [done|]. rewrite str_app_cons. simpl. by rewrite IH.
Qed.

Lemma substring_app_l (s t : string) :
  substring 0 (String.length s) (s +:+ t) = s.
Proof.
  induction s as [|a s IH]; simpl.
  - by destruct t.
  - by rewrite IH.
Qed.

Lemma prefix_iff (s1 s2 : string) :
  String.prefix s1 s2 = true ↔ ∃ post, s2 = s1 +:+ post.
Proof.
  revert s2. induction s1 as [|a s1 IH]; intros s2.
  - split; [intros _; by exists s2|]. by destruct s2.
  - destruct s2 as [|b s2]; simpl.
    + split; [done|]. intros [post Hpost]. discriminate.
    + destruct (ascii_dec a b) as [->|Hne].
      * rewrite IH. split; intros [post Hpost]; exists post.
        -- by rewrite str_app_cons, <- Hpost.
        -- rewrite str_app_cons in Hpost. by injection Hpost.
      * split; [done|]. intros [post Hpost].
        rewrite str_app_cons in Hpost. injection Hpost as -> _. done.
Qed.

Lemma prefix_app_same (s t u : string) :
  String.prefix (s +:+ t) (s +:+ u) = String.prefix t u.
Proof.
  induction s as [|a s IH]; [done|].
  rewrite !str_app_cons. simpl. by destruct (ascii_dec a a).
Qed.

Lemma first_char_app (s t : string) :
  first_char (s +:+ t)
  = match first_char s with Some c => Some c | None => first_char t end.
Proof. by destruct s. Qed.

Lemma last_char_cons (a : ascii) (s : string) :
  last_char (String a s)
  = match last_char s with Some c => Some c | None => Some a end.
Proof.
  revert a. induction s as [|b s IH]; intros a; [done|].
  change (last_char (String a (String b s))) with (last_char (String b s)).
  rewrite IH. by destruct (last_char s).
Qed.

Lemma last_char_app (s t : string) :
  last_char (s +:+ t)
  = match last_char t with Some c => Some c | None => last_char s end.
Proof.
  induction s as [|a s IH].
  - rewrite str_app_nil_l. by destruct (last_char t).
  - rewrite str_app_cons, !last_char_cons, IH.
    by destruct (last_char t), (last_char s).
Qed.

Lemma lower_app (s t : string) : lower (s +:+ t) = lower s +:+ lower t.
Proof.
  induction s as [|a s IH]; [done|].
  rewrite str_app_cons. simpl. by rewrite str_app_cons, IH.
Qed.

Lemma first_char_lower (s : string) :
  first_char (lower s) = lower_char <$> first_char s.
Proof. by destruct s. Qed.

Lemma last_char_lower (s : string) :
  last_char (lower s) = lower_char <$> last_char s.
Proof.
  induction s as [|a s IH]; [done|].
  change (lower (String a s)) with (String (lower_char a) (lower s)).
  rewrite !last_char_cons, IH. by destruct (last_char s).
Qed.

Lemma is_word_lower_char (c : ascii) : is_word (lower_char c) = is_word c.
Proof. destruct c as [[] [] [] [] [] [] [] []]; reflexivity. Qed.

Lemma word_at_lower (o : option ascii) :
  word_at (lower_char <$> o) = word_at o.
Proof. destruct o; [apply is_word_lower_char|done]. Qed.

(** ** The matcher *)

Lemma prev_after_cons (prev : option ascii) (c : ascii) (s : string) :
  prev_after prev (String c s) = prev_after (Some c) s.
Proof. unfold prev_after. rewrite last_char_cons. by destruct (last_char s). Qed.

Lemma prev_after_app (prev : option ascii) (s t : string) :
  prev_after prev (s +:+ t) = prev_after (prev_after prev s) t.
Proof.
  unfold prev_after. rewrite last_char_app.
  by destruct (last_char t), (last_char s).
Qed.

Lemma search_from_iff (m : pos → option pos) (prev : option ascii)
    (s : string) :
  search_from m prev s = true
  ↔ ∃ pre post, s = pre +:+ post ∧ is_Some (m (prev_after prev pre, post)).
Proof.
  revert prev. induction s as [|c s IH]; intros prev; simpl.
  - destruct (m (prev, EmptyString)) as [q|] eqn:Hm.
    + split; [intros _|done]. exists EmptyString, EmptyString.
      split; [done|]. unfold prev_after. simpl. rewrite Hm. eauto.
    + split; [done|]. intros (pre & post & Heq & Hsome).
      destruct pre; [|done]. destruct post; [|done].
      unfold prev_after in Hsome. simpl in Hsome. rewrite Hm in Hsome.
      by destruct Hsome.
  - destruct (m (prev, String c s)) as [q|] eqn:Hm.
    + split; [intros _|done]. exists EmptyString, (String c s).
      split; [done|]. unfold prev_after. simpl. rewrite Hm. eauto.
    + rewrite IH. split.
      * intros (pre & post & -> & Hsome). exists (String c pre), post.
        split; [done|]. by rewrite prev_after_cons.
      * intros (pre & post & Heq & Hsome). destruct pre as [|a pre].
        -- rewrite str_app_nil_l in Heq. subst post.
           unfold prev_after in Hsome. simpl in Hsome. rewrite Hm in Hsome.
           by destruct Hsome.
        -- rewrite str_app_cons in Heq. injection Heq as <- ->.
           exists pre, post. split; [done|].
           by rewrite prev_after_cons in Hsome.
Qed.

Lemma lit_gen_iff (ci : bool) (w : string) (prev : option ascii) (s : string)
    (q : pos) :
  lit_gen ci w (prev, s) = Some q
  ↔ ∃ w' rest, s = w' +:+ rest ∧ reads ci w w' ∧ q = (prev_after prev w', rest).
Proof.
  revert prev s. induction w as [|a w IH]; intros prev s; simpl.
  - split.
    + intros [= <-]. exists EmptyString, s. by destruct ci.
    + intros (w' & rest & -> & Hr & ->).
      assert (w' = EmptyString) as ->.
      { destruct ci; simpl in Hr; [by destruct w'|done]. }
      done.
  - unfold and_then, char_if. simpl. destruct s as [|c s].
    + split; [done|]. intros (w' & rest & Heq & Hr & _).
      destruct w'; [|done]. destruct ci; simpl in Hr; done.
    + destruct (if ci then Ascii.eqb (lower_char c) (lower_char a)
                else Ascii.eqb c a) eqn:Hc.
      * rewrite IH. split.
        -- intros (w' & rest & -> & Hr & ->). exists (String c w'), rest.
           split; [done|]. split; [|by rewrite prev_after_cons].
           destruct ci; simpl in *; apply Ascii.eqb_eq in Hc; congruence.
        -- intros (w' & rest & Heq & Hr & ->). destruct w' as [|b w'].
           { destruct ci; simpl in Hr; done. }
           rewrite str_app_cons in Heq. injection Heq as <- ->.
           exists w', rest. split; [done|].
           split; [|by rewrite prev_after_cons].
           destruct ci; simpl in *; congruence.
      * split; [done|]. intros (w' & rest & Heq & Hr & _).
        destruct w' as [|b w'].
        { destruct ci; simpl in Hr; done. }
        rewrite str_app_cons in Heq. injection Heq as <- ->.
        destruct ci; simpl in Hr; injection Hr as Hb Hw.
        -- apply Ascii.eqb_neq in Hc. done.
        -- apply Ascii.eqb_neq in Hc. done.
Qed.

Lemma wb_Some (p q : pos) :
  wb p = Some q ↔ q = p ∧ word_at p.1 ≠ word_at (peek p).
Proof.
  unfold wb. destruct (word_at p.1), (word_at (peek p)); simpl.
  - split; [done|]. by intros [_ ?].
  - split; [by intros [= <-]|]. by intros [-> _].
  - split; [by intros [= <-]|]. by intros [-> _].
  - split; [done|]. by intros [_ ?].
Qed.

Lemma alt_Some (alts : list (pos → option pos)) (k : pos → option pos)
    (p q : pos) :
  alt alts k p = Some q → ∃ a, a ∈ alts ∧ (a >=> k) p = Some q.
Proof.
  induction alts as [|a alts IH]; simpl; [done|].
  destruct ((a >=> k) p) as [q'|] eqn:Ha.
  - intros [= <-]. exists a. split; [by left|done].
  - intros (b & Hb & Hq)%IH. exists b. split; [by right|done].
Qed.

Lemma alt_is_Some (alts : list (pos → option pos)) (k : pos → option pos)
    (p : pos) :
  is_Some (alt alts k p) ↔ ∃ a, a ∈ alts ∧ is_Some ((a >=> k) p).
Proof.
  induction alts as [|a alts IH]; simpl.
  - split; [by intros [? ?]|]. intros (a & Ha & _). by apply elem_of_nil in Ha.
  - destruct ((a >=> k) p) as [q'|] eqn:Ha.
    + split; [|eauto]. intros _. exists a. rewrite Ha. split; [by left|eauto].
    + rewrite IH. split.
      * intros (b & Hb & Hq). exists b. split; [by right|done].
      * intros (b & Hb & Hq). apply elem_of_cons in Hb as [->|Hb].
        -- rewrite Ha in Hq. by destruct Hq.
        -- eauto.
Qed.

Lemma and_then_assoc (a b c : pos → option pos) (p : pos) :
  ((a >=> b) >=> c) p = (a >=> (b >=> c)) p.
Proof. unfold and_then. by destruct (a p). Qed.

Lemma prev_after_None (pre : string) : prev_after None pre = last_char pre.
Proof. unfold prev_after. by destruct (last_char pre). Qed.

Lemma reads_word_ends (ci : bool) (w w' : string) :
  reads ci w w' →
  word_at (first_char w') = word_at (first_char w)
  ∧ word_at (last_char w') = word_at (last_char w).
Proof.
  destruct ci; simpl; [|by intros ->]. intros Hlow. split.
  - rewrite <- (word_at_lower (first_char w')), <- (word_at_lower (first_char w)).
    by rewrite <- !first_char_lower, Hlow.
  - rewrite <- (word_at_lower (last_char w')), <- (word_at_lower (last_char w)).
    by rewrite <- !last_char_lower, Hlow.
Qed.

Lemma word_at_last_prev_after (prev : option ascii) (w : string) :
  word_at (last_char w) = true → prev_after prev w = last_char w.
Proof. unfold prev_after. by destruct (last_char w). Qed.

(** A literal that starts and ends with a word character, between two
    [\b]: it matches where the text reads it with no word character around. *)
Lemma word_match_iff (ci : bool) (w : string) (prev : option ascii)
    (s : string) :
  word_at (first_char w) = true → word_at (last_char w) = true →
  is_Some ((wb >=> (lit_gen ci w >=> wb)) (prev, s))
  ↔ ∃ w' rest,
      s = w' +:+ rest ∧ reads ci w w'
      ∧ word_at prev = false ∧ word_at (first_char rest) = false.
Proof.
  intros Hfirst Hlast. unfold and_then at 1. split.
  - destruct (wb (prev, s)) as [p|] eqn:Hwb; [|by intros [? ?]].
    apply wb_Some in Hwb as [-> Hb]. simpl in Hb.
    unfold and_then. destruct (lit_gen ci w (prev, s)) as [q|] eqn:Hlit;
      [|by intros [? ?]].
    apply lit_gen_iff in Hlit as (w' & rest & -> & Hr & ->).
    intros [q Hq]. apply wb_Some in Hq as [_ Hb']. simpl in Hb'.
    destruct (reads_word_ends _ _ _ Hr) as [Hf Hl].
    rewrite Hfirst in Hf. rewrite Hlast in Hl.
    exists w', rest. split; [done|]. split; [done|].
    unfold peek in Hb, Hb'. simpl in Hb, Hb'.
    change (match w' +:+ rest with
            | EmptyString => None | String c _ => Some c end)
      with (first_char (w' +:+ rest)) in Hb.
    change (match rest with
            | EmptyString => None | String c _ => Some c end)
      with (first_char rest) in Hb'.
    rewrite first_char_app in Hb.
    rewrite (word_at_last_prev_after _ _ Hl), Hl in Hb'.
    destruct (first_char w') as [c|]; [|done]. simpl in Hf, Hb.
    rewrite Hf in Hb.
    split; [by destruct (word_at prev)|by destruct (word_at (first_char rest))].
  - intros (w' & rest & -> & Hr & Hprev & Hrest).
    destruct (reads_word_ends _ _ _ Hr) as [Hf Hl].
    rewrite Hfirst in Hf. rewrite Hlast in Hl.
    assert (wb (prev, w' +:+ rest) = Some (prev, w' +:+ rest)) as ->.
    { apply wb_Some. split; [done|]. simpl. unfold peek. simpl.
      change (match w' +:+ rest with
              | EmptyString => None | String c _ => Some c end)
        with (first_char (w' +:+ rest)).
      rewrite first_char_app. destruct (first_char w') as [c|]; [|done].
      simpl in Hf. simpl. by rewrite Hprev, Hf. }
    unfold and_then.
    assert (lit_gen ci w (prev, w' +:+ rest) = Some (prev_after prev w', rest))
      as ->.
    { apply lit_gen_iff. by exists w', rest. }
    assert (wb (prev_after prev w', rest) = Some (prev_after prev w', rest))
      as ->; [|eauto].
    apply wb_Some. split; [done|]. simpl. unfold peek. simpl.
    change (match rest with
            | EmptyString => None | String c _ => Some c end)
      with (first_char rest).
    by rewrite (word_at_last_prev_after _ _ Hl), Hl, Hrest.
Qed.

Lemma str_in_iff (needle text : string) :
  str_in needle text = true ↔ substring_of needle text.
Proof.
  unfold str_in, search, substring_of. rewrite search_from_iff. split.
  - intros (pre & post & -> & [q Hq]).
    apply lit_gen_iff in Hq as (w' & rest & -> & -> & _). by exists pre, rest.
  - intros (pre & post & ->). exists pre, (needle +:+ post). split; [done|].
    exists (prev_after (prev_after None pre) needle, post).
    apply lit_gen_iff. by exists needle, post.
Qed.

Lemma search_word_pattern_iff (term text : string) :
  word_at (first_char term) = true → word_at (last_char term) = true →
  search (word_pattern term) text = true ↔ whole_word_in term text.
Proof.
  intros Hfirst Hlast. unfold search, whole_word_in, word_pattern.
  rewrite search_from_iff. split.
  - intros (pre & post & -> & Hm). rewrite and_then_assoc in Hm.
    apply (word_match_iff false) in Hm as (w' & rest & -> & -> & Hp & Hr);
      [|done..].
    rewrite prev_after_None in Hp. by exists pre, rest.
  - intros (pre & post & -> & Hp & Hr). exists pre, (term +:+ post).
    split; [done|]. rewrite and_then_assoc.
    apply (word_match_iff false); [done..|]. exists term, post.
    by rewrite prev_after_None.
Qed.


(** ** The definitions check *)

Lemma required_definition_word_ends (term : string) :
  term ∈ REQUIRED_DEFINITIONS →
  word_at (first_char term) = true ∧ word_at (last_char term) = true.
Proof.
  intros Hterm. unfold REQUIRED_DEFINITIONS in Hterm.
  repeat (apply elem_of_cons in Hterm as [->|Hterm]; [done|]).
  by apply elem_of_nil in Hterm.
Qed.

(** C8.  With no file named "00...", the definitions check finds nothing.
    Otherwise it reads the first such file and reports, in the order of the
    fixed list, one error for each term that does not occur in its text as
    a whole word. *)
Theorem C8_definitions (files : list Path) :
  (List.find (λ p, startswith (name p) "00") files = None →
   validate_definitions files = Ok [])
  ∧ (∀ intro,
       List.find (λ p, startswith (name p) "00") files = Some intro →
       readable intro →
       validate_definitions files
       = Ok (flat_map
               (λ term,
                  if search (word_pattern term) (text_of intro) then []
                  else [mkFinding "error"
                          (name intro
                           +:+ " is missing required definition or acronym: "
                           +:+ term +:+ ".")])
               ["SRS"; "RTM"; "MoSCoW"; "IADT"; "FR"; "NFR"; "DR"; "IR"; "CR"])
       ∧ ∀ term,
           term ∈ ["SRS"; "RTM"; "MoSCoW"; "IADT"; "FR"; "NFR"; "DR"; "IR"; "CR"] →
           search (word_pattern term) (text_of intro) = true
           ↔ whole_word_in term (text_of intro)).
Proof.
  split.
  - intros Hnone. unfold validate_definitions. by rewrite Hnone.
  - intros intro Hsome Hread. split.
    + unfold validate_definitions. rewrite Hsome.
      rewrite (read_text_readable intro Hread), bind_Ok.
      f_equal.
      rewrite (fold_left_emit
                 (λ term,
                    if search (word_pattern term) (text_of intro) then []
                    else [mkFinding "error"
                            (missing_definition_message (name intro) term)])).
      * done.
      * intros findings term _.
        destruct (search (word_pattern term) (text_of intro)); simpl;
          [by rewrite app_nil_r|done].
    + intros term Hterm.
      destruct (required_definition_word_ends term Hterm) as [Hf Hl].
      by apply search_word_pattern_iff.
Qed.

(** ** The checks on one block *)

Lemma check_block_findings (path : Path) (line_no : nat)
    (req_id block : string) (findings : list Finding) :
  check_block path line_no req_id block findings
  = findings ++ block_findings path line_no req_id block.
Proof.
  unfold check_block, block_findings.
  rewrite (fold_left_emit
             (λ field, if str_in field block then []
                       else [meta_finding path line_no req_id field])).
  - destruct (search MODALITY_PATTERN block); simpl;
      [done|by rewrite <- app_assoc].
  - intros fs field _. destruct (str_in field block); simpl;
      [by rewrite app_nil_r|done].
Qed.


(** ** What [REQ_ID_PATTERN] matches *)

Lemma char_if_Some (ok : ascii → bool) (prev : option ascii) (s : string)
    (q : pos) :
  char_if ok (prev, s) = Some q
  ↔ ∃ c rest, s = String c rest ∧ ok c = true ∧ q = (Some c, rest).
Proof.
  unfold char_if. simpl. destruct s as [|c s].
  - split; [done|]. by intros (c & rest & ? & _).
  - destruct (ok c) eqn:Hc.
    + split; [intros [= <-]; by exists c, s|].
      by intros (c' & rest & [= <- <-] & _ & ->).
    + split; [done|]. intros (c' & rest & [= <- <-] & Hok & _). congruence.
Qed.

Lemma REQ_ID_PATTERN_Some (prev : option ascii) (s : string) (q : pos) :
  REQ_ID_PATTERN (prev, s) = Some q →
  ∃ r, well_formed_id r ∧ s = r +:+ q.2.
Proof.
  unfold REQ_ID_PATTERN. unfold and_then at 1.
  destruct (wb (prev, s)) as [p|] eqn:Hwb; [|done].
  apply wb_Some in Hwb as [-> _].
  intros (a & Ha & Hm)%alt_Some.
  apply list_elem_of_fmap in Ha as (category & -> & Hcat).
  unfold and_then in Hm.
  destruct (lit category (prev, s)) as [p1|] eqn:H1; [|done].
  apply lit_gen_iff in H1 as (w & r1 & -> & -> & ->).
  destruct (lit "-" (prev_after prev category, r1)) as [p2|] eqn:H2; [|done].
  apply lit_gen_iff in H2 as (w & r2 & -> & -> & ->).
  destruct (digit _) as [p3|] eqn:H3; [|done].
  apply char_if_Some in H3 as (d1 & r3 & -> & Hd1 & ->).
  destruct (digit _) as [p4|] eqn:H4; [|done].
  apply char_if_Some in H4 as (d2 & r4 & -> & Hd2 & ->).
  destruct (digit _) as [p5|] eqn:H5; [|done].
  apply char_if_Some in H5 as (d3 & r5 & -> & Hd3 & ->).
  apply wb_Some in Hm as [-> _]. simpl.
  exists (category +:+ String "-" (String d1 (String d2 (String d3 EmptyString)))).
  split.
  - by exists category, d1, d2, d3.
  - by rewrite str_app_assoc.
Qed.

Lemma group0_app (r rest : string) (prev : option ascii) :
  group0 (r +:+ rest) (prev, rest) = r.
Proof.
  unfold group0. simpl. rewrite str_app_length.
  replace (String.length r + String.length rest - String.length rest)
    with (String.length r) by lia.
  apply substring_app_l.
Qed.

Lemma finditer_from_well_formed (skip : nat) (prev : option ascii)
    (s : string) :
  Forall well_formed_id (finditer_from REQ_ID_PATTERN skip prev s).
Proof.
  revert skip prev. induction s as [|c s IH]; intros skip prev; simpl; [done|].
  destruct skip as [|k]; [|apply IH].
  destruct (REQ_ID_PATTERN (prev, String c s)) as [q|] eqn:Hm; [|apply IH].
  destruct (REQ_ID_PATTERN_Some _ _ _ Hm) as (r & Hr & Hs).
  constructor; [|apply IH].
  destruct q as [prev' rest]. simpl in Hs. rewrite Hs.
  by rewrite group0_app.
Qed.

Lemma finditer_well_formed (line : string) :
  Forall well_formed_id (finditer REQ_ID_PATTERN line).
Proof. apply finditer_from_well_formed. Qed.

Lemma id_lines_of_well_formed (lines : list string) :
  Forall (λ entry, well_formed_id entry.2) (id_lines_of lines).
Proof.
  unfold id_lines_of, id_lines_from. generalize 1.
  induction lines as [|line lines IH]; intros k; simpl; [done|].
  apply Forall_app. split; [|apply IH].
  apply Forall_fmap. eapply Forall_impl; [apply finditer_well_formed|done].
Qed.

(** Case analysis on the category of a well-formed identifier. *)
Ltac by_category H :=
  let category := fresh "category" in
  let Hcat := fresh "Hcat" in
  destruct H as (category & ? & ? & ? & Hcat & ? & ? & ? & ->);
  unfold REQ_ID_CATEGORIES in Hcat;
  repeat (apply elem_of_cons in Hcat as [->|Hcat]);
  [..|by apply elem_of_nil in Hcat].

Lemma well_formed_prefix (r : string) :
  well_formed_id r →
  CATEGORY_PREFIX !! split_head "-" r = Some (section_prefix_of (category_of r)).
Proof. intros Hr. by_category Hr; reflexivity. Qed.

(** ** The loops of [validate_requirements] *)

Lemma scan_match_emit (path : Path) (line_no : nat) (findings : list Finding)
    (seen_ids : gmap string (Path * nat)) (id_lines : list (nat * string))
    (req : string) :
  well_formed_id req →
  scan_match path line_no (findings, seen_ids, id_lines) req
  = Ok (findings ++ scan_emit seen_ids path (line_no, req),
        register path seen_ids (line_no, req),
        id_lines ++ [(line_no, req)]).
Proof.
  intros Hreq. unfold scan_match, scan_emit, register, misplaced. simpl.
  rewrite (well_formed_prefix req Hreq). fold (category_of req).
  destruct (seen_ids !! req) as [[original_path original_line]|];
    destruct (startswith (name path) (section_prefix_of (category_of req)));
    simpl; rewrite ?app_nil_r, <- ?app_assoc; done.
Qed.

Lemma scan_emits_app (seen_ids : gmap string (Path * nat)) (path : Path)
    (l1 l2 : list (nat * string)) :
  scan_emits seen_ids path (l1 ++ l2)
  = scan_emits seen_ids path l1
    ++ scan_emits (fold_left (register path) l1 seen_ids) path l2.
Proof.
  revert seen_ids. induction l1 as [|entry l1 IH]; intros seen_ids; simpl;
    [done|].
  by rewrite IH, <- app_assoc.
Qed.

Lemma scan_matches_emit (path : Path) (line_no : nat) (reqs : list string) :
  Forall well_formed_id reqs →
  ∀ findings seen_ids id_lines,
    for_each reqs (scan_match path line_no) (findings, seen_ids, id_lines)
    = Ok (findings ++ scan_emits seen_ids path (map (pair line_no) reqs),
          fold_left (register path) (map (pair line_no) reqs) seen_ids,
          id_lines ++ map (pair line_no) reqs).
Proof.
  induction 1 as [|req reqs Hreq Hreqs IH]; intros findings seen_ids id_lines.
  - simpl. by rewrite !app_nil_r.
  - rewrite for_each_cons, (scan_match_emit _ _ _ _ _ _ Hreq), bind_Ok, IH.
    simpl. by rewrite <- !app_assoc.
Qed.

Lemma id_lines_from_cons (start : nat) (line : string) (lines : list string) :
  id_lines_from start (line :: lines)
  = map (pair start) (finditer REQ_ID_PATTERN line)
    ++ id_lines_from (S start) lines.
Proof. reflexivity. Qed.

Lemma scan_lines_emit (path : Path) (lines : list string) :
  ∀ start findings seen_ids id_lines,
    for_each (enumerate start lines) (scan_line path)
      (findings, seen_ids, id_lines)
    = Ok (findings ++ scan_emits seen_ids path (id_lines_from start lines),
          fold_left (register path) (id_lines_from start lines) seen_ids,
          id_lines ++ id_lines_from start lines).
Proof.
  induction lines as [|line lines IH]; intros start findings seen_ids id_lines.
  - simpl. by rewrite !app_nil_r.
  - rewrite id_lines_from_cons. cbn [enumerate]. rewrite for_each_cons.
    change (scan_line path (findings, seen_ids, id_lines) (start, line))
      with (for_each (finditer REQ_ID_PATTERN line) (scan_match path start)
              (findings, seen_ids, id_lines)).
    rewrite (scan_matches_emit _ _ _ (finditer_well_formed line)), bind_Ok.
    rewrite IH. rewrite scan_emits_app, fold_left_app.
    by rewrite <- !app_assoc.
Qed.

Lemma check_blocks_emit (path : Path) (lines : list string)
    (id_lines : list (nat * string)) (findings : list Finding) :
  check_blocks path lines id_lines findings
  = findings ++ block_emits path lines id_lines.
Proof.
  unfold check_blocks, block_emits.
  apply (fold_left_emit
           (λ '(index, (line_no, req_id)),
              block_findings path line_no req_id
                (block_of lines id_lines index line_no))).
  intros fs [index [line_no req_id]] _. apply check_block_findings.
Qed.

Lemma requirements_body_emit (findings : list Finding)
    (seen_ids : gmap string (Path * nat)) (path : Path) :
  readable path →
  requirements_body (findings, seen_ids) path
  = Ok (findings ++ file_emits seen_ids path, file_seen seen_ids path).
Proof.
  intros Hpath. unfold requirements_body, file_emits, file_seen, id_lines_of.
  rewrite (read_text_readable path Hpath), bind_Ok.
  rewrite scan_lines_emit, bind_Ok. simpl.
  by rewrite check_blocks_emit, <- app_assoc.
Qed.

Lemma requirements_files_emit (files : list Path) :
  Forall readable files →
  ∀ findings seen_ids,
    ∃ seen_ids',
      for_each files requirements_body (findings, seen_ids)
      = Ok (findings ++ files_emits seen_ids files, seen_ids').
Proof.
  induction 1 as [|path files Hpath Hfiles IH]; intros findings seen_ids.
  - exists seen_ids. simpl. by rewrite app_nil_r.
  - rewrite for_each_cons, (requirements_body_emit _ _ _ Hpath), bind_Ok.
    cbn [files_emits].
    destruct (IH (findings ++ file_emits seen_ids path)
                (file_seen seen_ids path)) as [seen_ids' ->].
    exists seen_ids'. by rewrite <- app_assoc.
Qed.

Lemma any_has_req_id_readable (section_files : list Path) :
  Forall readable section_files →
  any_has_req_id section_files
  = Ok (existsb (λ p, search REQ_ID_PATTERN (text_of p)) section_files).
Proof.
  induction 1 as [|p rest Hp Hrest IH]; [done|].
  cbn [any_has_req_id existsb].
  rewrite (read_text_readable p Hp), bind_Ok.
  by destruct (search REQ_ID_PATTERN (text_of p)).
Qed.

Lemma coverage_emit (files : list Path) (findings : list Finding) :
  Forall readable files →
  for_each ["02"; "03"; "04"; "05"; "06"] (coverage_body files) findings
  = Ok (findings ++ coverage_emits files).
Proof.
  intros Hfiles. unfold coverage_emits. apply for_each_emit.
  intros fs prefix _. unfold coverage_body.
  assert (Forall readable
            (List.filter (λ p, startswith (name p) prefix) files)) as Hsec.
  { rewrite Forall_forall in *. intros p Hp. apply Hfiles.
    apply list_elem_of_In in Hp. apply filter_In in Hp as [Hp _].
    by apply list_elem_of_In. }
  destruct (List.filter _ files) as [|p section_files] eqn:Hfilter.
  - by rewrite app_nil_r.
  - rewrite (any_has_req_id_readable _ Hsec), bind_Ok.
    destruct (existsb _ _); simpl; [by rewrite app_nil_r|done].
Qed.

(** The findings of the requirements check, when every file can be read. *)
Lemma validate_requirements_emit (files : list Path) :
  Forall readable files →
  validate_requirements files
  = Ok (files_emits ∅ files ++ coverage_emits files).
Proof.
  intros Hfiles. unfold validate_requirements.
  destruct (requirements_files_emit files Hfiles [] ∅) as [seen_ids' ->].
  rewrite bind_Ok. simpl. by apply coverage_emit.
Qed.

(** ** Telling the findings of the requirements check apart *)

(** Brings the appends of an equation between texts to constructor form. *)
Ltac normalize_text H :=
  unfold duplicate_message, prefix_message, modality_message, meta_message,
    coverage_message in H;
  repeat rewrite ?str_app_cons, ?str_app_nil_l in H.

Lemma well_formed_eq_of_prefix (r r' rest post : string) :
  well_formed_id r → well_formed_id r' →
  r' +:+ String " " rest = r +:+ String " " post → r' = r.
Proof.
  intros Hr Hr' Heq.
  by_category Hr; by_category Hr'; normalize_text Heq; by simplify_eq.
Qed.

Lemma is_duplicate_error_error (req m : string) :
  is_duplicate_error req (mkFinding "error" m)
  = String.prefix ("Duplicate requirement ID " +:+ req +:+ " in ") m.
Proof. reflexivity. Qed.

Lemma is_prefix_warning_warning (req m : string) :
  is_prefix_warning req (mkFinding "warning" m)
  = String.prefix (req +:+ " appears in ") m.
Proof. reflexivity. Qed.

Lemma is_duplicate_error_duplicate (req : string) (o original : occurrence) :
  well_formed_id req → well_formed_id (occ_req o) →
  is_duplicate_error req (duplicate_finding o original)
  = String.eqb (occ_req o) req.
Proof.
  intros Hreq Ho. unfold duplicate_finding.
  rewrite is_duplicate_error_error.
  unfold duplicate_message. rewrite prefix_app_same.
  destruct (String.eqb_spec (occ_req o) req) as [->|Hne].
  - rewrite prefix_app_same. apply prefix_iff. by eexists.
  - apply not_true_is_false. intros [post Hpost]%prefix_iff.
    rewrite str_app_assoc in Hpost. destruct Hne.
    exact (well_formed_eq_of_prefix _ _ _ _ Hreq Ho Hpost).
Qed.

Lemma is_duplicate_error_modality (req : string) (path : Path)
    (line_no : nat) (req_id : string) :
  well_formed_id req_id →
  is_duplicate_error req (modality_finding path line_no req_id) = false.
Proof.
  intros Hid. unfold modality_finding. rewrite is_duplicate_error_error.
  apply not_true_is_false. intros [post Hpost]%prefix_iff.
  by_category Hid; normalize_text Hpost; by simplify_eq.
Qed.

Lemma is_prefix_warning_prefix (req : string) (o : occurrence) :
  well_formed_id req → well_formed_id (occ_req o) →
  is_prefix_warning req (prefix_finding o) = String.eqb (occ_req o) req.
Proof.
  intros Hreq Ho. unfold prefix_finding. rewrite is_prefix_warning_warning.
  unfold prefix_message.
  destruct (String.eqb_spec (occ_req o) req) as [->|Hne].
  - rewrite prefix_app_same. apply prefix_iff. by eexists.
  - apply not_true_is_false. intros [post Hpost]%prefix_iff.
    rewrite str_app_assoc in Hpost. destruct Hne.
    exact (well_formed_eq_of_prefix _ _ _ _ Hreq Ho Hpost).
Qed.

Lemma is_prefix_warning_meta (req : string) (path : Path) (line_no : nat)
    (req_id field : string) :
  well_formed_id req → well_formed_id req_id →
  is_prefix_warning req (meta_finding path line_no req_id field) = false.
Proof.
  intros Hreq Hid. unfold meta_finding. rewrite is_prefix_warning_warning.
  apply not_true_is_false. intros [post Hpost]%prefix_iff.
  by_category Hreq; by_category Hid; normalize_text Hpost; by simplify_eq.
Qed.

Lemma is_prefix_warning_coverage (req prefix : string) :
  well_formed_id req →
  is_prefix_warning req (mkFinding "warning" (coverage_message prefix)) = false.
Proof.
  intros Hreq. rewrite is_prefix_warning_warning.
  apply not_true_is_false. intros [post Hpost]%prefix_iff.
  by_category Hreq; normalize_text Hpost; by simplify_eq.
Qed.

(** The findings on one block are no duplicate errors and no section-prefix
    warnings. *)
Lemma filter_duplicate_block (req : string) (path : Path) (line_no : nat)
    (req_id block : string) :
  well_formed_id req_id →
  List.filter (is_duplicate_error req)
    (block_findings path line_no req_id block) = [].
Proof.
  intros Hid. unfold block_findings, REQUIRED_META_FIELDS.
  destruct (search MODALITY_PATTERN block); simpl;
    rewrite ?(is_duplicate_error_modality _ _ _ _ Hid);
    repeat (destruct (str_in _ block); simpl); done.
Qed.

Lemma filter_prefix_block (req : string) (path : Path) (line_no : nat)
    (req_id block : string) :
  well_formed_id req → well_formed_id req_id →
  List.filter (is_prefix_warning req)
    (block_findings path line_no req_id block) = [].
Proof.
  intros Hreq Hid. unfold block_findings, REQUIRED_META_FIELDS.
  destruct (search MODALITY_PATTERN block); simpl;
    repeat (destruct (str_in _ block); simpl;
            rewrite ?(is_prefix_warning_meta _ _ _ _ _ Hreq Hid)); done.
Qed.

Lemma filter_flat_map_nil {A B} (keep : B → bool) (emit : A → list B)
    (l : list A) :
  (∀ x, x ∈ l → List.filter keep (emit x) = []) →
  List.filter keep (flat_map emit l) = [].
Proof.
  induction l as [|x l IH]; intros Hnil; simpl; [done|].
  rewrite List.filter_app, Hnil by left. simpl. apply IH.
  intros y Hy. apply Hnil. by right.
Qed.

Lemma enumerate_elem_of {A} (start : nat) (l : list A) (i : nat) (x : A) :
  (i, x) ∈ enumerate start l → x ∈ l.
Proof.
  revert start. induction l as [|y l IH]; intros start; simpl.
  - by intros ?%elem_of_nil.
  - intros [[= -> ->]|Hin]%elem_of_cons; [by left|]. right. by eapply IH.
Qed.

Lemma filter_duplicate_blocks (req : string) (path : Path)
    (lines : list string) (id_lines : list (nat * string)) :
  Forall (λ entry, well_formed_id entry.2) id_lines →
  List.filter (is_duplicate_error req) (block_emits path lines id_lines) = [].
Proof.
  intros Hwf. unfold block_emits. apply filter_flat_map_nil.
  intros [index [line_no req_id]] Hin. apply filter_duplicate_block.
  apply enumerate_elem_of in Hin. rewrite Forall_forall in Hwf.
  by apply (Hwf (line_no, req_id)).
Qed.

Lemma filter_prefix_blocks (req : string) (path : Path)
    (lines : list string) (id_lines : list (nat * string)) :
  well_formed_id req →
  Forall (λ entry, well_formed_id entry.2) id_lines →
  List.filter (is_prefix_warning req) (block_emits path lines id_lines) = [].
Proof.
  intros Hreq Hwf. unfold block_emits. apply filter_flat_map_nil.
  intros [index [line_no req_id]] Hin. apply filter_prefix_block; [done|].
  apply enumerate_elem_of in Hin. rewrite Forall_forall in Hwf.
  by apply (Hwf (line_no, req_id)).
Qed.

Lemma filter_duplicate_coverage (req : string) (files : list Path) :
  List.filter (is_duplicate_error req) (coverage_emits files) = [].
Proof.
  unfold coverage_emits. apply filter_flat_map_nil. intros prefix _.
  destruct (List.filter _ files); [done|]. by destruct (existsb _ _).
Qed.

Lemma filter_prefix_coverage (req : string) (files : list Path) :
  well_formed_id req →
  List.filter (is_prefix_warning req) (coverage_emits files) = [].
Proof.
  intros Hreq. unfold coverage_emits. apply filter_flat_map_nil.
  intros prefix _. destruct (List.filter _ files); [done|].
  destruct (existsb _ _); [done|]. simpl.
  by rewrite (is_prefix_warning_coverage _ _ Hreq).
Qed.

(** ** Duplicates *)

Lemma expected_duplicates_app (origin : option occurrence)
    (l1 l2 : list occurrence) :
  expected_duplicates origin (l1 ++ l2)
  = expected_duplicates origin l1
    ++ expected_duplicates (origin_after origin l1) l2.
Proof.
  destruct origin as [original|]; simpl; [by rewrite map_app|].
  destruct l1 as [|first l1]; simpl; [done|]. by rewrite map_app.
Qed.

Lemma origin_after_app (origin : option occurrence) (l1 l2 : list occurrence) :
  origin_after origin (l1 ++ l2) = origin_after (origin_after origin l1) l2.
Proof.
  destruct origin as [original|]; simpl; [done|]. by destruct l1.
Qed.

Lemma scan_emit_filter_duplicate (req : string)
    (seen_ids : gmap string (Path * nat)) (path : Path)
    (entry : nat * string) :
  well_formed_id req → well_formed_id entry.2 →
  List.filter (is_duplicate_error req) (scan_emit seen_ids path entry)
  = expected_duplicates (seen_origin seen_ids req)
      (List.filter (λ o, String.eqb (occ_req o) req)
         [mk_occurrence path entry]).
Proof.
  intros Hreq Hentry. destruct entry as [line_no r]. simpl in Hentry.
  unfold scan_emit, seen_origin. cbn [fst snd]. rewrite List.filter_app.
  assert (List.filter (is_duplicate_error req)
            (if misplaced (mk_occurrence path (line_no, r))
             then [prefix_finding (mk_occurrence path (line_no, r))]
             else []) = []) as ->.
  { by destruct (misplaced _). }
  rewrite app_nil_r. cbn [List.filter mk_occurrence occ_req fst snd].
  destruct (String.eqb_spec r req) as [->|Hne].
  - destruct (seen_ids !! req) as [[original_path original_line]|]; [|done].
    cbn [List.filter]. rewrite is_duplicate_error_duplicate by done.
    simpl. by rewrite String.eqb_refl.
  - destruct (seen_ids !! r) as [[original_path original_line]|];
      [|by destruct (seen_ids !! req) as [[? ?]|]].
    cbn [List.filter]. rewrite is_duplicate_error_duplicate by done.
    simpl. apply String.eqb_neq in Hne. rewrite Hne.
    by destruct (seen_ids !! req) as [[? ?]|].
Qed.

Lemma register_origin (req : string) (seen_ids : gmap string (Path * nat))
    (path : Path) (entry : nat * string) :
  seen_origin (register path seen_ids entry) req
  = origin_after (seen_origin seen_ids req)
      (List.filter (λ o, String.eqb (occ_req o) req)
         [mk_occurrence path entry]).
Proof.
  destruct entry as [line_no r]. unfold register, seen_origin. simpl.
  destruct (String.eqb_spec r req) as [->|Hne].
  - destruct (seen_ids !! req) as [[original_path original_line]|] eqn:Hseen.
    + by rewrite Hseen.
    + by rewrite lookup_insert_eq.
  - destruct (seen_ids !! r) as [[original_path original_line]|] eqn:Hseen.
    + by destruct (seen_ids !! req) as [[? ?]|].
    + rewrite lookup_insert_ne by done.
      by destruct (seen_ids !! req) as [[? ?]|].
Qed.

Lemma scan_emits_filter_duplicate (req : string) (path : Path)
    (id_lines : list (nat * string)) :
  well_formed_id req →
  Forall (λ entry, well_formed_id entry.2) id_lines →
  ∀ seen_ids,
    List.filter (is_duplicate_error req) (scan_emits seen_ids path id_lines)
    = expected_duplicates (seen_origin seen_ids req)
        (List.filter (λ o, String.eqb (occ_req o) req)
           (map (mk_occurrence path) id_lines))
    ∧ seen_origin (fold_left (register path) id_lines seen_ids) req
      = origin_after (seen_origin seen_ids req)
          (List.filter (λ o, String.eqb (occ_req o) req)
             (map (mk_occurrence path) id_lines)).
Proof.
  intros Hreq. induction 1 as [|entry id_lines Hentry Hrest IH];
    intros seen_ids.
  - simpl. split; by destruct (seen_origin seen_ids req).
  - cbn [scan_emits fold_left map].
    change (mk_occurrence path entry :: map (mk_occurrence path) id_lines)
      with ([mk_occurrence path entry] ++ map (mk_occurrence path) id_lines).
    rewrite !List.filter_app, expected_duplicates_app, origin_after_app.
    rewrite (scan_emit_filter_duplicate _ _ _ _ Hreq Hentry).
    destruct (IH (register path seen_ids entry)) as [-> ->].
    by rewrite register_origin.
Qed.

Lemma occurrences_cons (p : Path) (files : list Path) :
  occurrences (p :: files)
  = map (mk_occurrence p) (id_lines_of (splitlines (text_of p)))
    ++ occurrences files.
Proof. reflexivity. Qed.

Lemma files_emits_filter_duplicate (req : string) (files : list Path) :
  well_formed_id req →
  ∀ seen_ids,
    List.filter (is_duplicate_error req) (files_emits seen_ids files)
    = expected_duplicates (seen_origin seen_ids req)
        (occurrences_of req files).
Proof.
  intros Hreq. unfold occurrences_of.
  induction files as [|p files IH]; intros seen_ids.
  - simpl. by destruct (seen_origin seen_ids req).
  - cbn [files_emits]. rewrite occurrences_cons.
    rewrite !List.filter_app, expected_duplicates_app. unfold file_emits.
    rewrite List.filter_app.
    rewrite filter_duplicate_blocks by apply id_lines_of_well_formed.
    rewrite app_nil_r.
    destruct (scan_emits_filter_duplicate req p _ Hreq
                (id_lines_of_well_formed (splitlines (text_of p))) seen_ids)
      as [-> Horigin].
    f_equal. rewrite IH. unfold file_seen. by rewrite Horigin.
Qed.

Lemma occurrences_well_formed (files : list Path) :
  Forall (λ o, well_formed_id (occ_req o)) (occurrences files).
Proof.
  induction files as [|p files IH]; [done|].
  rewrite occurrences_cons. apply Forall_app. split; [|done].
  apply Forall_fmap.
  eapply Forall_impl; [apply id_lines_of_well_formed|done].
Qed.

(** C4.  For an identifier that occurs in the documents, the requirements
    check reports one duplicate error for each of its occurrences after the
    first in scan order, in that order, and each of them names the place of
    that first occurrence. *)
Theorem C4_duplicates (files : list Path) (req : string) :
  Forall readable files →
  req ∈ map occ_req (occurrences files) →
  ∃ findings first later,
    validate_requirements files = Ok findings
    ∧ List.filter (λ o, String.eqb (occ_req o) req) (occurrences files)
      = first :: later
    ∧ List.filter (is_duplicate_error req) findings
      = map (λ o,
               mkFinding "error"
                 ("Duplicate requirement ID " +:+ req +:+ " in "
                  +:+ name (occ_path o) +:+ ":" +:+ str_nat (occ_line o)
                  +:+ "; " +:+ "already defined at "
                  +:+ name (occ_path first) +:+ ":"
                  +:+ str_nat (occ_line first) +:+ "."))
          later
    ∧ length (List.filter (is_duplicate_error req) findings)
      = length (List.filter (λ o, String.eqb (occ_req o) req)
                  (occurrences files)) - 1.
Proof.
  intros Hfiles Hreq.
  apply list_elem_of_fmap in Hreq as (o & -> & Ho).
  assert (well_formed_id (occ_req o)) as Hwf.
  { pose proof (occurrences_well_formed files) as Hall.
    rewrite Forall_forall in Hall. by apply Hall. }
  destruct (List.filter (λ o', String.eqb (occ_req o') (occ_req o))
              (occurrences files)) as [|first later] eqn:Hoccs.
  { assert (o ∈ ([] : list occurrence)) as Hin; [|by apply elem_of_nil in Hin].
    rewrite <- Hoccs. apply list_elem_of_In, filter_In.
    split; [by apply list_elem_of_In|apply String.eqb_refl]. }
  exists (files_emits ∅ files ++ coverage_emits files), first, later.
  split; [by apply validate_requirements_emit|]. split; [done|].
  assert (List.filter (is_duplicate_error (occ_req o))
            (files_emits ∅ files ++ coverage_emits files)
          = map (λ o', duplicate_finding o' first) later) as Hdup.
  { rewrite List.filter_app, filter_duplicate_coverage, app_nil_r.
    rewrite files_emits_filter_duplicate by done.
    unfold occurrences_of. by rewrite Hoccs. }
  split.
  - rewrite Hdup. apply map_ext_in. intros o' Ho'.
    assert (occ_req o' = occ_req o) as Heq.
    { assert (In o' (first :: later)) as Hin by (by right).
      rewrite <- Hoccs in Hin. apply filter_In in Hin as [_ Hin].
      by apply String.eqb_eq. }
    unfold duplicate_finding, duplicate_message. by rewrite Heq.
  - rewrite Hdup, length_map. simpl. lia.
Qed.

(** ** Section prefixes *)

Lemma is_prefix_warning_error (req m : string) :
  is_prefix_warning req (mkFinding "error" m) = false.
Proof. reflexivity. Qed.

Lemma scan_emit_filter_prefix (req : string)
    (seen_ids : gmap string (Path * nat)) (path : Path)
    (entry : nat * string) :
  well_formed_id req → well_formed_id entry.2 →
  List.filter (is_prefix_warning req) (scan_emit seen_ids path entry)
  = map prefix_finding
      (List.filter (λ o, String.eqb (occ_req o) req && misplaced o)
         [mk_occurrence path entry]).
Proof.
  intros Hreq Hentry. unfold scan_emit. rewrite List.filter_app.
  assert (List.filter (is_prefix_warning req)
            match seen_ids !! entry.2 with
            | Some (original_path, original_line) =>
                [duplicate_finding (mk_occurrence path entry)
                   {| occ_path := original_path; occ_line := original_line;
                      occ_req := entry.2 |}]
            | None => []
            end = []) as ->.
  { by destruct (seen_ids !! entry.2) as [[? ?]|]. }
  cbn [app List.filter].
  destruct (misplaced (mk_occurrence path entry)).
  - cbn [List.filter].
    rewrite is_prefix_warning_prefix by done.
    rewrite andb_true_r. by destruct (String.eqb _ req).
  - by rewrite andb_false_r.
Qed.

Lemma scan_emits_filter_prefix (req : string) (path : Path)
    (id_lines : list (nat * string)) :
  well_formed_id req →
  Forall (λ entry, well_formed_id entry.2) id_lines →
  ∀ seen_ids,
    List.filter (is_prefix_warning req) (scan_emits seen_ids path id_lines)
    = map prefix_finding
        (List.filter (λ o, String.eqb (occ_req o) req && misplaced o)
           (map (mk_occurrence path) id_lines)).
Proof.
  intros Hreq. induction 1 as [|entry id_lines Hentry Hrest IH];
    intros seen_ids; [done|].
  cbn [scan_emits map].
  change (mk_occurrence path entry :: map (mk_occurrence path) id_lines)
    with ([mk_occurrence path entry] ++ map (mk_occurrence path) id_lines).
  rewrite !List.filter_app, map_app.
  by rewrite (scan_emit_filter_prefix _ _ _ _ Hreq Hentry), IH.
Qed.

Lemma files_emits_filter_prefix (req : string) (files : list Path) :
  well_formed_id req →
  ∀ seen_ids,
    List.filter (is_prefix_warning req) (files_emits seen_ids files)
    = map prefix_finding
        (List.filter (λ o, String.eqb (occ_req o) req && misplaced o)
           (occurrences files)).
Proof.
  intros Hreq. induction files as [|p files IH]; intros seen_ids; [done|].
  cbn [files_emits]. rewrite occurrences_cons.
  rewrite !List.filter_app, map_app. unfold file_emits.
  rewrite List.filter_app.
  rewrite filter_prefix_blocks by (done || apply id_lines_of_well_formed).
  rewrite app_nil_r.
  rewrite scan_emits_filter_prefix by (done || apply id_lines_of_well_formed).
  by rewrite IH.
Qed.

Lemma filter_elem_of {A} (keep : A → bool) (l : list A) (x : A) :
  x ∈ List.filter keep l → x ∈ l.
Proof.
  intros Hx. apply list_elem_of_In in Hx. apply filter_In in Hx as [Hx _].
  by apply list_elem_of_In.
Qed.

(** C5.  For an identifier that occurs in the documents, the requirements
    check reports one section-prefix warning for each of its occurrences in
    a file whose name does not start with the prefix of its category
    (IR 02, FR 03, DR 04, NFR 05, CR 06), in scan order and whether or not the
    occurrence is a duplicate; an occurrence that repeats an earlier one in
    such a file gets both the duplicate error and the warning. *)
Theorem C5_section_prefix (files : list Path) :
  Forall readable files →
  ∃ findings,
    validate_requirements files = Ok findings
    ∧ (∀ req,
         req ∈ map occ_req (occurrences files) →
         List.filter (is_prefix_warning req) findings
         = map (λ o,
                  mkFinding "warning"
                    (req +:+ " appears in " +:+ name (occ_path o)
                     +:+ "; expected section prefix "
                     +:+ section_prefix_of (category_of req) +:+ " for "
                     +:+ category_of req +:+ " requirements."))
             (List.filter
                (λ o, String.eqb (occ_req o) req
                      && negb (startswith (name (occ_path o))
                                 (section_prefix_of (category_of req))))
                (occurrences files)))
    ∧ (∀ before o after,
         occurrences files = before ++ o :: after →
         occ_req o ∈ map occ_req before →
         startswith (name (occ_path o))
           (section_prefix_of (category_of (occ_req o))) = false →
         ∃ original,
           original ∈ before
           ∧ occ_req original = occ_req o
           ∧ duplicate_finding o original ∈ findings
           ∧ prefix_finding o ∈ findings).
Proof.
  intros Hfiles.
  exists (files_emits ∅ files ++ coverage_emits files).
  split; [by apply validate_requirements_emit|].
  pose proof (occurrences_well_formed files) as Hall.
  rewrite Forall_forall in Hall.
  assert (∀ req, well_formed_id req →
            List.filter (is_prefix_warning req)
              (files_emits ∅ files ++ coverage_emits files)
            = map prefix_finding
                (List.filter (λ o, String.eqb (occ_req o) req && misplaced o)
                   (occurrences files))) as Hwarn.
  { intros req Hreq.
    rewrite List.filter_app, filter_prefix_coverage, app_nil_r by done.
    by apply files_emits_filter_prefix. }
  split.
  - intros req (o & -> & Ho)%list_elem_of_fmap.
    rewrite Hwarn by (by apply Hall).
    assert (∀ o', String.eqb (occ_req o') (occ_req o) && misplaced o'
                  = String.eqb (occ_req o') (occ_req o)
                    && negb (startswith (name (occ_path o'))
                               (section_prefix_of (category_of (occ_req o)))))
      as Hsame.
    { intros o'. unfold misplaced.
      destruct (String.eqb_spec (occ_req o') (occ_req o)) as [->|]; done. }
    rewrite (filter_ext _ _ Hsame). apply map_ext_in. intros o' Ho'.
    apply filter_In in Ho' as [_ [Heq _]%andb_prop].
    apply String.eqb_eq in Heq. unfold prefix_finding, prefix_message.
    by rewrite Heq.
  - intros before o after Hsplit (original & Heq & Horig)%list_elem_of_fmap
      Hmis.
    assert (well_formed_id (occ_req o)) as Hwf.
    { apply Hall. rewrite Hsplit. apply elem_of_app. right. by left. }
    pose proof (files_emits_filter_duplicate (occ_req o) files Hwf ∅) as Hdup.
    unfold occurrences_of in Hdup. rewrite Hsplit in Hdup.
    rewrite List.filter_app in Hdup. cbn [List.filter] in Hdup.
    rewrite String.eqb_refl in Hdup.
    destruct (List.filter (λ o', String.eqb (occ_req o') (occ_req o)) before)
      as [|first earlier] eqn:Hbefore.
    { assert (original ∈ ([] : list occurrence)) as Hin;
        [|by apply elem_of_nil in Hin].
      rewrite <- Hbefore. apply list_elem_of_In, filter_In.
      split; [by apply list_elem_of_In|]. rewrite <- Heq.
      apply String.eqb_refl. }
    assert (In first (List.filter (λ o', String.eqb (occ_req o') (occ_req o))
                        before)) as Hfirst.
    { rewrite Hbefore. by left. }
    apply filter_In in Hfirst as [Hfirst Hreq]. apply String.eqb_eq in Hreq.
    exists first. split; [by apply list_elem_of_In|]. split; [done|]. split.
    + apply elem_of_app. left.
      apply (filter_elem_of (is_duplicate_error (occ_req o))).
      rewrite Hdup. unfold seen_origin. rewrite lookup_empty.
      cbn [expected_duplicates app]. rewrite map_app.
      apply elem_of_app. right. by left.
    + apply elem_of_app. left.
      apply (filter_elem_of (is_prefix_warning (occ_req o))).
      rewrite files_emits_filter_prefix by done.
      apply list_elem_of_fmap. exists o. split; [done|].
      apply list_elem_of_In, filter_In. split.
      * rewrite Hsplit. apply in_or_app. right. by left.
      * unfold misplaced. by rewrite String.eqb_refl, Hmis.
Qed.

(** ** Identifiers that share a line *)

Lemma id_lines_from_split (lines : list string) (k : nat) (line : string) :
  ∀ start,
    lines !! k = Some line →
    ∃ pre post,
      id_lines_from start lines
      = pre ++ map (pair (start + k)) (finditer REQ_ID_PATTERN line) ++ post.
Proof.
  revert k. induction lines as [|l lines IH]; intros k start Hk; [done|].
  rewrite id_lines_from_cons. destruct k as [|k]; simpl in Hk.
  - injection Hk as ->. exists [], (id_lines_from (S start) lines).
    by rewrite Nat.add_0_r.
  - destruct (IH k (S start) Hk) as (pre & post & ->).
    exists (map (pair start) (finditer REQ_ID_PATTERN l) ++ pre), post.
    rewrite <- app_assoc. by rewrite Nat.add_succ_r.
Qed.

Lemma lookup_map_pair {A} (n : nat) (l : list A) (j : nat) (x : A) :
  l !! j = Some x → map (pair n) l !! j = Some (n, x).
Proof.
  revert j. induction l as [|y l IH]; intros [|j] Hj; simplify_eq/=; eauto.
Qed.

Lemma lookup_middle {A} (pre mid post : list A) (j : nat) (x : A) :
  mid !! j = Some x → (pre ++ mid ++ post) !! (length pre + j) = Some x.
Proof.
  intros Hj. rewrite lookup_app_r by lia.
  replace (length pre + j - length pre) with j by lia.
  by apply lookup_app_l_Some.
Qed.

Lemma enumerate_lookup {A} (l : list A) (i : nat) (x : A) :
  ∀ start, l !! i = Some x → (start + i, x) ∈ enumerate start l.
Proof.
  revert i. induction l as [|y l IH]; intros [|i] start Hi; simplify_eq/=.
  - rewrite Nat.add_0_r. by left.
  - right. rewrite Nat.add_succ_r. by apply (IH i (S start)).
Qed.

Lemma flat_map_contains {A B} (emit : A → list B) (l : list A) (x : A) :
  x ∈ l → ∃ l1 l2, flat_map emit l = l1 ++ emit x ++ l2.
Proof.
  intros (a & b & ->)%list_elem_of_split.
  exists (flat_map emit a), (flat_map emit b).
  by rewrite flat_map_app.
Qed.

Lemma files_emits_contains (path : Path) (files : list Path)
    (part : list Finding) :
  path ∈ files →
  (∃ l1 l2,
     block_emits path (splitlines (text_of path))
       (id_lines_of (splitlines (text_of path))) = l1 ++ part ++ l2) →
  ∀ seen_ids, ∃ l1 l2, files_emits seen_ids files = l1 ++ part ++ l2.
Proof.
  intros Hpath (b1 & b2 & Hblock).
  induction files as [|p files IH]; intros seen_ids.
  - by apply elem_of_nil in Hpath.
  - cbn [files_emits]. apply elem_of_cons in Hpath as [<-|Hpath].
    + unfold file_emits. rewrite Hblock.
      exists (scan_emits seen_ids path
                (id_lines_of (splitlines (text_of path))) ++ b1),
        (b2 ++ files_emits (file_seen seen_ids path) files).
      by rewrite <- !app_assoc.
    + destruct (IH Hpath (file_seen seen_ids p)) as (l1 & l2 & ->).
      exists (file_emits seen_ids p ++ l1), l2. by rewrite <- !app_assoc.
Qed.

(** C10.  When a line holds an identifier that is followed by another
    identifier on the same line, the block of the first of the two is empty
    (it starts where it ends), and the requirements check reports for it the missing-modality error and
    the three missing-label warnings, whatever the line says. *)
Theorem C10_shared_line (files : list Path) (path : Path) (k : nat)
    (line : string) (j : nat) (req next : string) :
  Forall readable files →
  path ∈ files →
  splitlines (text_of path) !! k = Some line →
  finditer REQ_ID_PATTERN line !! j = Some req →
  finditer REQ_ID_PATTERN line !! (j + 1) = Some next →
  ∃ index,
    id_lines_of (splitlines (text_of path)) !! index = Some (k + 1, req)
    ∧ id_lines_of (splitlines (text_of path)) !! (index + 1)
      = Some (k + 1, next)
    ∧ block_start (k + 1)
      = block_end (splitlines (text_of path))
          (id_lines_of (splitlines (text_of path))) index
    ∧ block_of (splitlines (text_of path))
        (id_lines_of (splitlines (text_of path))) index (k + 1)
      = EmptyString
    ∧ ∃ l1 l2,
        validate_requirements files
        = Ok (l1
              ++ [ mkFinding "error"
                     (req +:+ " in " +:+ name path +:+ ":" +:+ str_nat (k + 1)
                      +:+ " does not contain shall/should/may.");
                   mkFinding "warning"
                     (req +:+ " in " +:+ name path +:+ ":" +:+ str_nat (k + 1)
                      +:+ " is missing 'Priority:'.");
                   mkFinding "warning"
                     (req +:+ " in " +:+ name path +:+ ":" +:+ str_nat (k + 1)
                      +:+ " is missing 'Verify:'.");
                   mkFinding "warning"
                     (req +:+ " in " +:+ name path +:+ ":" +:+ str_nat (k + 1)
                      +:+ " is missing 'Release:'.") ]
              ++ l2).
Proof.
  intros Hfiles Hpath Hline Hreq Hnext.
  set (lines := splitlines (text_of path)) in *.
  destruct (id_lines_from_split lines k line 1 Hline) as (pre & post & Hsplit).
  fold (id_lines_of lines) in Hsplit.
  replace (1 + k) with (k + 1) in Hsplit by lia.
  assert (id_lines_of lines !! (length pre + j) = Some (k + 1, req)) as Hthis.
  { rewrite Hsplit. apply lookup_middle. by apply lookup_map_pair. }
  assert (id_lines_of lines !! (length pre + j + 1) = Some (k + 1, next))
    as Hthat.
  { rewrite Hsplit. replace (length pre + j + 1) with (length pre + (j + 1))
      by lia.
    apply lookup_middle. by apply lookup_map_pair. }
  assert (block_of lines (id_lines_of lines) (length pre + j) (k + 1)
          = EmptyString) as Hblock.
  { unfold block_of, block_start, block_end. rewrite Hthat. unfold slice.
    by rewrite Nat.sub_diag. }
  exists (length pre + j). split; [done|]. split; [done|].
  split; [unfold block_start, block_end; by rewrite Hthat|]. split; [done|].
  destruct (files_emits_contains path files
              (block_findings path (k + 1) req EmptyString) Hpath) with (seen_ids := (∅ : gmap string (Path * nat)))
    as (l1 & l2 & Hemits).
  { unfold block_emits. fold lines.
    destruct (flat_map_contains
                (λ '(index, (line_no, req_id)),
                   block_findings path line_no req_id
                     (block_of lines (id_lines_of lines) index line_no))
                (enumerate 0 (id_lines_of lines))
                (length pre + j, (k + 1, req))) as (b1 & b2 & Hb).
    { by apply (enumerate_lookup _ _ _ 0). }
    exists b1, b2. rewrite Hb. by rewrite Hblock. }
  exists l1, (l2 ++ coverage_emits files).
  rewrite validate_requirements_emit by done. rewrite Hemits.
  by rewrite <- !app_assoc.
Qed.

(** ** The pipeline *)



Lemma main_no_markdown (args : Namespace) (entries : list Path) :
  load_markdown_files (Directory entries) = [] →
  main args (Directory entries)
  = Ok (["ERROR: No markdown files found in " +:+ spec_dir args], 1%Z).
Proof. intros Hnone. unfold main. simpl. by rewrite Hnone. Qed.

(** Once the files are loaded, [main] collects the findings and reports. *)
Lemma main_checks (args : Namespace) (entries : list Path) :
  load_markdown_files (Directory entries) ≠ [] →
  main args (Directory entries)
  = findings ←
      collect_findings (load_markdown_files (Directory entries))
        (max_lines args);
    Ok (report args (load_markdown_files (Directory entries)) findings).
Proof.
  intros Hsome. unfold main, collect_findings.
  cbn [exists_ is_dir negb].
  destruct (load_markdown_files (Directory entries)) as [|p files] eqn:Hload;
    [done|].
  destruct (validate_line_limits _ _) as [f2|e]; [|done]. rewrite !bind_Ok.
  destruct (validate_definitions _) as [f3|e]; [|done]. rewrite !bind_Ok.
  destruct (validate_change_control _) as [f4|e]; [|done]. rewrite !bind_Ok.
  destruct (validate_rtm _) as [f5|e]; [|done]. rewrite !bind_Ok.
  destruct (validate_requirements _) as [f6|e]; [|done]. rewrite !bind_Ok.
  rewrite app_nil_l, <- !app_assoc.
  unfold report, errors_of, warnings_of, error_line, warn_line, summary_line.
  by destruct (List.filter _ _).
Qed.

Lemma find_elem_of {A} (test : A → bool) (l : list A) (x : A) :
  List.find test l = Some x → x ∈ l.
Proof. intros [Hx _]%find_some. by apply list_elem_of_In. Qed.

Lemma validate_definitions_readable (files : list Path) :
  Forall readable files → ∃ findings, validate_definitions files = Ok findings.
Proof.
  intros Hfiles. unfold validate_definitions.
  destruct (List.find _ files) as [intro|] eqn:Hfind; [|eauto].
  rewrite Forall_forall in Hfiles.
  rewrite (read_text_readable intro) by eauto using find_elem_of.
  rewrite bind_Ok. eauto.
Qed.

Lemma validate_change_control_readable (files : list Path) :
  Forall readable files →
  ∃ findings, validate_change_control files = Ok findings.
Proof.
  intros Hfiles. unfold validate_change_control.
  destruct (List.find _ files) as [change_file|] eqn:Hfind; [|eauto].
  rewrite Forall_forall in Hfiles.
  rewrite (read_text_readable change_file) by eauto using find_elem_of.
  rewrite bind_Ok. eauto.
Qed.

Lemma validate_rtm_readable (files : list Path) :
  Forall readable files → ∃ findings, validate_rtm files = Ok findings.
Proof.
  intros Hfiles. unfold validate_rtm.
  eexists. apply (for_each_emit
    (λ path,
       if str_in
            "| Req ID | Requirement | Source/Need | Design Ref | Test Case | Status |"
            (text_of path)
       then []
       else [mkFinding "warning"
               (name path +:+ " is missing the recommended RTM header row.")])).
  intros findings path Hpath. apply filter_elem_of in Hpath.
  rewrite Forall_forall in Hfiles.
  rewrite (read_text_readable path) by eauto. rewrite bind_Ok.
  destruct (str_in _ (text_of path)); simpl; [by rewrite app_nil_r|done].
Qed.

Lemma collect_findings_readable (files : list Path) (max_lines : Z) :
  Forall readable files →
  ∃ findings, collect_findings files max_lines = Ok findings.
Proof.
  intros Hfiles. unfold collect_findings.
  rewrite validate_line_limits_readable, bind_Ok by done.
  destruct (validate_definitions_readable files Hfiles) as [f3 ->].
  destruct (validate_change_control_readable files Hfiles) as [f4 ->].
  destruct (validate_rtm_readable files Hfiles) as [f5 ->].
  rewrite validate_requirements_emit by done. rewrite !bind_Ok. eauto.
Qed.

Lemma validate_line_limits_unreadable (before : list Path) (p : Path)
    (after : list Path) (max_lines : Z) :
  Forall readable before → ¬ readable p →
  validate_line_limits (before ++ p :: after) max_lines
  = Raise (ReadError (name p)).
Proof.
  intros Hbefore Hp. unfold validate_line_limits.
  apply (for_each_raise (line_limit_findings max_lines)).
  - intros findings y Hy. apply line_limit_body_readable.
    rewrite Forall_forall in Hbefore. by apply Hbefore.
  - intros findings. unfold line_limit_body.
    by rewrite (read_text_unreadable p Hp).
Qed.

Lemma collect_findings_unreadable (before : list Path) (p : Path)
    (after : list Path) (max_lines : Z) :
  Forall readable before → ¬ readable p →
  collect_findings (before ++ p :: after) max_lines
  = Raise (ReadError (name p)).
Proof.
  intros Hbefore Hp. unfold collect_findings.
  by rewrite validate_line_limits_unreadable.
Qed.

(** Either every file can be read or there is a first one that cannot. *)
Lemma readable_or_first (files : list Path) :
  Forall readable files
  ∨ ∃ before p after,
      files = before ++ p :: after ∧ Forall readable before ∧ ¬ readable p.
Proof.
  induction files as [|q files IH]; [by left|].
  destruct (decide (readable q)) as [Hq|Hq].
  - destruct IH as [Hall|(before & p & after & -> & Hbefore & Hp)].
    + left. by constructor.
    + right. exists (q :: before), p, after. split; [done|].
      split; [by constructor|done].
  - right. exists [], q, files. by split.
Qed.

Lemma collect_findings_Ok_readable (files : list Path) (max_lines : Z)
    (findings : list Finding) :
  collect_findings files max_lines = Ok findings → Forall readable files.
Proof.
  intros Hok.
  destruct (readable_or_first files)
    as [Hall|(before & p & after & -> & Hbefore & Hp)]; [done|].
  by rewrite collect_findings_unreadable in Hok.
Qed.

(** ** Loading *)

Lemma load_markdown_files_Permutation (entries : list Path) :
  load_markdown_files (Directory entries)
  ≡ₚ List.filter
       (λ path, is_file path && String.eqb (lower (suffix path)) ".md")
       entries.
Proof. unfold load_markdown_files. apply merge_sort_Permutation. Qed.

Lemma load_markdown_files_nonempty (target : fs_object) :
  load_markdown_files target ≠ [] ↔ has_markdown target.
Proof.
  unfold has_markdown. destruct target as [| |entries]; simpl.
  - split; [done|]. intros (p & Hp & _). by apply elem_of_nil in Hp.
  - split; [done|]. intros (p & Hp & _). by apply elem_of_nil in Hp.
  - split.
    + intros Hsome.
      destruct (load_markdown_files (Directory entries)) as [|p files] eqn:Hload;
        [done|].
      assert (p ∈ load_markdown_files (Directory entries)) as Hp.
      { rewrite Hload. by left. }
      rewrite load_markdown_files_Permutation in Hp.
      apply list_elem_of_In, filter_In in Hp as [Hp [Hfile Hmd]%andb_prop].
      exists p. split; [by apply list_elem_of_In|]. split; [done|].
      by apply String.eqb_eq.
    + intros (p & Hp & Hfile & Hmd) Hnone.
      assert (p ∈ load_markdown_files (Directory entries)) as Hin.
      { rewrite load_markdown_files_Permutation.
        apply list_elem_of_In, filter_In. split; [by apply list_elem_of_In|].
        rewrite Hfile, Hmd. done. }
      rewrite Hnone in Hin. by apply elem_of_nil in Hin.
Qed.

Lemma list_filter_Permutation {A} (keep : A → bool) (l1 l2 : list A) :
  l1 ≡ₚ l2 → List.filter keep l1 ≡ₚ List.filter keep l2.
Proof.
  induction 1 as [|x l1 l2 Hperm IH|x y l|l1 l2 l3 H12 IH12 H23 IH23]; simpl.
  - done.
  - destruct (keep x); [by constructor|done].
  - destruct (keep x), (keep y); try done. apply perm_swap.
  - by etrans.
Qed.

Lemma NoDup_name_inj (l : list Path) (p q : Path) :
  NoDup (map name l) → p ∈ l → q ∈ l → name p = name q → p = q.
Proof.
  induction l as [|r l IH]; intros Hnodup Hp Hq Heq.
  - by apply elem_of_nil in Hp.
  - simpl in Hnodup. apply NoDup_cons in Hnodup as [Hr Hnodup].
    apply elem_of_cons in Hp as [->|Hp]; apply elem_of_cons in Hq as [->|Hq].
    + done.
    + destruct Hr. rewrite Heq. apply list_elem_of_fmap. by exists q.
    + destruct Hr. rewrite <- Heq. apply list_elem_of_fmap. by exists p.
    + by apply IH.
Qed.

(** The files loaded do not depend on the order in which the directory is
    listed. *)
Lemma load_markdown_files_order (entries1 entries2 : list Path) :
  NoDup (map name entries1) → entries1 ≡ₚ entries2 →
  load_markdown_files (Directory entries1)
  = load_markdown_files (Directory entries2).
Proof.
  intros Hnodup Hperm.
  apply (Sorted_unique_strong path_le).
  - intros p q Hp Hq Hpq Hqp.
    rewrite load_markdown_files_Permutation in Hp.
    rewrite load_markdown_files_Permutation in Hq.
    apply filter_elem_of in Hp. apply filter_elem_of in Hq.
    rewrite <- Hperm in Hq.
    apply (NoDup_name_inj entries1); [done..|].
    unfold path_le in *. by apply (anti_symm String.le).
  - apply Sorted_merge_sort, _.
  - apply Sorted_merge_sort, _.
  - rewrite !load_markdown_files_Permutation.
    by apply list_filter_Permutation.
Qed.



(** ** The run as a whole *)

(** C1, as the script has it.  A markdown file that cannot be read makes the
    run stop at the first such file in sorted order: [main] raises the read
    failure, nothing is printed, no finding is reported, and the process
    exits with status 1. *)
Theorem C1_unreadable_file_aborts (args : Namespace) (entries : list Path)
    (before : list Path) (p : Path) (after : list Path) :
  load_markdown_files (Directory entries) = before ++ p :: after →
  Forall readable before →
  ¬ readable p →
  main args (Directory entries) = Raise (ReadError (name p))
  ∧ stdout (main args (Directory entries)) = []
  ∧ exit_status (main args (Directory entries)) = 1%Z.
Proof.
  intros Hload Hbefore Hp.
  assert (main args (Directory entries) = Raise (ReadError (name p))) as ->.
  { rewrite main_checks by (rewrite Hload; by destruct before).
    rewrite Hload. by rewrite collect_findings_unreadable. }
  done.
Qed.

(** C2, as the script has it.  When the directory exists, is a directory,
    holds a markdown file and every markdown file can be read, the report is:
    on failure the failure banner, every error line, every warning line; on
    success the success banner, every warning line, the count of files. *)
Theorem C2_report (args : Namespace) (target : fs_object) :
  exists_ target = true →
  is_dir target = true →
  has_markdown target →
  Forall readable (load_markdown_files target) →
  ∃ findings,
    collect_findings (load_markdown_files target) (max_lines args)
    = Ok findings
    ∧ stdout (main args target)
      = match errors_of findings with
        | _ :: _ =>
            ["SRS validation failed."]
            ++ map (λ f, "ERROR: " +:+ message f) (errors_of findings)
            ++ map (λ f, "WARN: " +:+ message f) (warnings_of findings)
        | [] =>
            ["SRS validation passed."]
            ++ map (λ f, "WARN: " +:+ message f) (warnings_of findings)
            ++ ["Checked " +:+ str_nat (length (load_markdown_files target))
                +:+ " markdown files in " +:+ spec_dir args +:+ "."]
        end.
Proof.
  intros _ Hdir Hmd Hread.
  destruct target as [| |entries]; [done..|].
  apply load_markdown_files_nonempty in Hmd.
  destruct (collect_findings_readable _ (max_lines args) Hread)
    as [findings Hfindings].
  exists findings. split; [done|].
  rewrite main_checks, Hfindings, bind_Ok by done.
  unfold report. by destruct (errors_of findings).
Qed.


(** C9.  Two runs over the same directory entries, in whatever order the
    directory lists them, print the same report and exit with the same
    status: the files loaded do not depend on the listing order, and the
    outcome is a function of the files loaded and of the arguments. *)
Theorem C9_deterministic (args : Namespace) (entries1 entries2 : list Path) :
  NoDup (map name entries1) →
  entries1 ≡ₚ entries2 →
  main args (Directory entries1) = main args (Directory entries2)
  ∧ stdout (main args (Directory entries1))
    = stdout (main args (Directory entries2))
  ∧ exit_status (main args (Directory entries1))
    = exit_status (main args (Directory entries2))
  ∧ ∀ entries3,
      load_markdown_files (Directory entries3)
      = load_markdown_files (Directory entries1) →
      main args (Directory entries3) = main args (Directory entries1).
Proof.
  intros Hnodup Hperm.
  assert (∀ e1 e2,
            load_markdown_files (Directory e1)
            = load_markdown_files (Directory e2) →
            main args (Directory e1) = main args (Directory e2)) as Hsame.
  { intros e1 e2 Hload.
    destruct (decide (load_markdown_files (Directory e1) = []))
      as [Hnone|Hsome].
    - rewrite !main_no_markdown; [done|by rewrite <- Hload|done].
    - rewrite !main_checks; [by rewrite Hload|by rewrite <- Hload|done]. }
  pose proof (load_markdown_files_order _ _ Hnodup Hperm) as Hload.
  rewrite (Hsame entries1 entries2 Hload). split; [done|]. split; [done|].
  split; [done|]. intros entries3 H3. apply Hsame. by rewrite H3, Hload.
Qed.

(** ** The theorems at the sample directories *)

Lemma sample_unreadable_loaded :
  load_markdown_files sample_unreadable_dir
  = [regular_file "00-intro.md" "SRS"; unreadable_file "01-product.md"].
Proof. vm_compute. reflexivity. Qed.

(** The claim C1 fails here: one markdown file of the directory cannot be
    read, and the run stops without a report. *)
Lemma C1_counterexample :
  List.filter (λ p, negb (bool_decide (readable p)))
    (load_markdown_files sample_unreadable_dir)
  = [unreadable_file "01-product.md"]
  ∧ main sample_args sample_unreadable_dir
    = Raise (ReadError "01-product.md")
  ∧ ¬ ∃ out status, main sample_args sample_unreadable_dir = Ok (out, status).
Proof.
  split; [by vm_compute|]. split; [by vm_compute|].
  intros (out & status & Hmain). vm_compute in Hmain. discriminate.
Qed.

Lemma C1_unreadable_file_aborts_witness :
  load_markdown_files sample_unreadable_dir
  = [regular_file "00-intro.md" "SRS"] ++ unreadable_file "01-product.md" :: []
  ∧ Forall readable [regular_file "00-intro.md" "SRS"]
  ∧ ¬ readable (unreadable_file "01-product.md")
  ∧ main sample_args sample_unreadable_dir = Raise (ReadError "01-product.md")
  ∧ stdout (main sample_args sample_unreadable_dir) = []
  ∧ exit_status (main sample_args sample_unreadable_dir) = 1%Z.
Proof.
  assert (Forall readable [regular_file "00-intro.md" "SRS"]) as Hbefore.
  { repeat constructor. by eexists. }
  assert (¬ readable (unreadable_file "01-product.md")) as Hp.
  { intros [text Htext]. discriminate. }
  split; [exact sample_unreadable_loaded|]. split; [exact Hbefore|].
  split; [exact Hp|].
  exact (C1_unreadable_file_aborts sample_args _
           [regular_file "00-intro.md" "SRS"]
           (unreadable_file "01-product.md") []
           sample_unreadable_loaded Hbefore Hp).
Defined.

(** The claim C2 fails here: the run fails, and its report ends with the
    warnings; no line counts the files checked. *)
Lemma C2_counterexample :
  exit_status (main sample_args sample_failing_dir) = 1%Z
  ∧ stdout (main sample_args sample_failing_dir)
    = [ "SRS validation failed.";
        "ERROR: Missing section 00 (Introduction).";
        "ERROR: Missing section 01 (Product perspective).";
        "ERROR: Missing section 02 (External interfaces).";
        "ERROR: Missing section 04 (Data requirements).";
        "ERROR: Missing section 05 (Non-functional requirements).";
        "ERROR: Missing section 06 (Constraints).";
        "ERROR: Missing section 07 (Change control).";
        "ERROR: FR-001 in 03-functional.md:1 does not contain shall/should/may.";
        "WARN: FR-001 in 03-functional.md:1 is missing 'Priority:'.";
        "WARN: FR-001 in 03-functional.md:1 is missing 'Verify:'.";
        "WARN: FR-001 in 03-functional.md:1 is missing 'Release:'." ]
  ∧ ¬ summary_line (load_markdown_files sample_failing_dir)
        (spec_dir sample_args)
      ∈ stdout (main sample_args sample_failing_dir).
Proof.
  split; [by vm_compute|]. split; [by vm_compute|].
  apply (bool_decide_unpack _). by vm_compute.
Qed.

Lemma sample_passing_markdown : has_markdown sample_passing_dir.
Proof. apply load_markdown_files_nonempty. by vm_compute. Qed.

Lemma sample_passing_readable :
  Forall readable (load_markdown_files sample_passing_dir).
Proof. apply (bool_decide_unpack _). by vm_compute. Qed.

Lemma C2_report_witness :
  exists_ sample_passing_dir = true
  ∧ is_dir sample_passing_dir = true
  ∧ has_markdown sample_passing_dir
  ∧ Forall readable (load_markdown_files sample_passing_dir)
  ∧ ∃ findings,
      collect_findings (load_markdown_files sample_passing_dir)
        (max_lines sample_args)
      = Ok findings
      ∧ stdout (main sample_args sample_passing_dir)
        = match errors_of findings with
          | _ :: _ =>
              ["SRS validation failed."]
              ++ map (λ f, "ERROR: " +:+ message f) (errors_of findings)
              ++ map (λ f, "WARN: " +:+ message f) (warnings_of findings)
          | [] =>
              ["SRS validation passed."]
              ++ map (λ f, "WARN: " +:+ message f) (warnings_of findings)
              ++ ["Checked "
                  +:+ str_nat (length (load_markdown_files sample_passing_dir))
                  +:+ " markdown files in " +:+ spec_dir sample_args +:+ "."]
          end.
Proof.
  split; [reflexivity|]. split; [reflexivity|].
  split; [exact sample_passing_markdown|].
  split; [exact sample_passing_readable|].
  exact (C2_report sample_args sample_passing_dir eq_refl eq_refl
           sample_passing_markdown sample_passing_readable).
Defined.

(** At the passing sample the report is the banner, the warning and the
    count. *)
Example sample_passing_report :
  main sample_args sample_passing_dir
  = Ok ([ "SRS validation passed.";
          "WARN: RTM.md is missing the recommended RTM header row.";
          "Checked 9 markdown files in specs/demo." ],
        0%Z).
Proof. vm_compute. reflexivity. Qed.


Lemma sample_long_readable : Forall readable sample_long_files.
Proof. repeat constructor; by eexists. Qed.

Lemma C7_line_limits_witness :
  Forall readable sample_long_files
  ∧ validate_line_limits sample_long_files DEFAULT_MAX_LINES
    = Ok [mkFinding "error"
            "99-appendix.md has 300 lines (max 150); split this section."].
Proof.
  split; [exact sample_long_readable|].
  rewrite (C7_line_limits sample_long_files DEFAULT_MAX_LINES
             sample_long_readable).
  vm_compute. reflexivity.
Defined.

Lemma C8_definitions_witness :
  List.find (λ p, startswith (name p) "00") sample_intro_files
  = Some (regular_file "00-intro.md" "SRS MoSCoW IADT FR NFR DR IR CR, no RTMs")
  ∧ validate_definitions sample_intro_files
    = Ok [mkFinding "error"
            "00-intro.md is missing required definition or acronym: RTM."].
Proof.
  split; [reflexivity|].
  destruct (C8_definitions sample_intro_files) as [_ Hintro].
  destruct (Hintro _ eq_refl) as [-> _]; [by eexists|].
  vm_compute. reflexivity.
Defined.

Lemma sample_duplicate_readable : Forall readable sample_duplicate_files.
Proof. repeat constructor; by eexists. Qed.

Lemma sample_duplicate_occurs :
  "FR-001" ∈ map occ_req (occurrences sample_duplicate_files).
Proof. apply (bool_decide_unpack _). by vm_compute. Qed.

Lemma C4_duplicates_witness :
  Forall readable sample_duplicate_files
  ∧ "FR-001" ∈ map occ_req (occurrences sample_duplicate_files)
  ∧ ∃ findings first later,
      validate_requirements sample_duplicate_files = Ok findings
      ∧ List.filter (λ o, String.eqb (occ_req o) "FR-001")
          (occurrences sample_duplicate_files)
        = first :: later
      ∧ List.filter (is_duplicate_error "FR-001") findings
        = map (λ o,
                 mkFinding "error"
                   ("Duplicate requirement ID " +:+ "FR-001" +:+ " in "
                    +:+ name (occ_path o) +:+ ":" +:+ str_nat (occ_line o)
                    +:+ "; " +:+ "already defined at "
                    +:+ name (occ_path first) +:+ ":"
                    +:+ str_nat (occ_line first) +:+ "."))
            later
      ∧ length (List.filter (is_duplicate_error "FR-001") findings)
        = length (List.filter (λ o, String.eqb (occ_req o) "FR-001")
                    (occurrences sample_duplicate_files)) - 1.
Proof.
  split; [exact sample_duplicate_readable|].
  split; [exact sample_duplicate_occurs|].
  exact (C4_duplicates sample_duplicate_files "FR-001"
           sample_duplicate_readable sample_duplicate_occurs).
Defined.

(** At the sample, the identifier occurs three times and is reported twice,
    each time against its first place. *)
Example sample_duplicate_errors :
  ∃ findings,
    validate_requirements sample_duplicate_files = Ok findings
    ∧ List.filter (is_duplicate_error "FR-001") findings
      = [ mkFinding "error"
            "Duplicate requirement ID FR-001 in 03-functional.md:2; already defined at 03-functional.md:1.";
          mkFinding "error"
            "Duplicate requirement ID FR-001 in 05-quality.md:1; already defined at 03-functional.md:1." ].
Proof. eexists. split; [by vm_compute|]. by vm_compute. Qed.

Lemma C5_section_prefix_witness :
  Forall readable sample_duplicate_files
  ∧ ∃ findings,
      validate_requirements sample_duplicate_files = Ok findings
      ∧ (∀ req,
           req ∈ map occ_req (occurrences sample_duplicate_files) →
           List.filter (is_prefix_warning req) findings
           = map (λ o,
                    mkFinding "warning"
                      (req +:+ " appears in " +:+ name (occ_path o)
                       +:+ "; expected section prefix "
                       +:+ section_prefix_of (category_of req) +:+ " for "
                       +:+ category_of req +:+ " requirements."))
               (List.filter
                  (λ o, String.eqb (occ_req o) req
                        && negb (startswith (name (occ_path o))
                                   (section_prefix_of (category_of req))))
                  (occurrences sample_duplicate_files)))
      ∧ (∀ before o after,
           occurrences sample_duplicate_files = before ++ o :: after →
           occ_req o ∈ map occ_req before →
           startswith (name (occ_path o))
             (section_prefix_of (category_of (occ_req o))) = false →
           ∃ original,
             original ∈ before
             ∧ occ_req original = occ_req o
             ∧ duplicate_finding o original ∈ findings
             ∧ prefix_finding o ∈ findings).
Proof.
  split; [exact sample_duplicate_readable|].
  exact (C5_section_prefix sample_duplicate_files sample_duplicate_readable).
Defined.

(** At the sample, the third occurrence of the identifier lies in a file of
    another section: it is reported as a duplicate and as misplaced. *)
Example sample_duplicate_and_warning :
  ∃ findings,
    validate_requirements sample_duplicate_files = Ok findings
    ∧ mkFinding "error"
        "Duplicate requirement ID FR-001 in 05-quality.md:1; already defined at 03-functional.md:1."
      ∈ findings
    ∧ mkFinding "warning"
        "FR-001 appears in 05-quality.md; expected section prefix 03 for FR requirements."
      ∈ findings
    ∧ List.filter (is_prefix_warning "FR-001") findings
      = [mkFinding "warning"
           "FR-001 appears in 05-quality.md; expected section prefix 03 for FR requirements."].
Proof.
  eexists. split; [by vm_compute|].
  split; [apply (bool_decide_unpack _); by vm_compute|].
  split; [apply (bool_decide_unpack _); by vm_compute|].
  by vm_compute.
Qed.

Lemma C9_deterministic_witness :
  NoDup (map name [regular_file "b.md" "FR-001"; regular_file "a.md" "x"])
  ∧ [regular_file "b.md" "FR-001"; regular_file "a.md" "x"]
    ≡ₚ [regular_file "a.md" "x"; regular_file "b.md" "FR-001"]
  ∧ main sample_args
      (Directory [regular_file "b.md" "FR-001"; regular_file "a.md" "x"])
    = main sample_args
        (Directory [regular_file "a.md" "x"; regular_file "b.md" "FR-001"])
  ∧ stdout
      (main sample_args
         (Directory [regular_file "b.md" "FR-001"; regular_file "a.md" "x"]))
    = stdout
        (main sample_args
           (Directory [regular_file "a.md" "x"; regular_file "b.md" "FR-001"]))
  ∧ exit_status
      (main sample_args
         (Directory [regular_file "b.md" "FR-001"; regular_file "a.md" "x"]))
    = exit_status
        (main sample_args
           (Directory [regular_file "a.md" "x"; regular_file "b.md" "FR-001"])).
Proof.
  assert (NoDup (map name [regular_file "b.md" "FR-001";
                           regular_file "a.md" "x"])) as Hnodup.
  { apply (bool_decide_unpack _). by vm_compute. }
  assert ([regular_file "b.md" "FR-001"; regular_file "a.md" "x"]
          ≡ₚ [regular_file "a.md" "x"; regular_file "b.md" "FR-001"])
    as Hperm by apply perm_swap.
  split; [exact Hnodup|]. split; [exact Hperm|].
  destruct (C9_deterministic sample_args _ _ Hnodup Hperm)
    as (Hmain & Hout & Hstatus & _).
  split; [exact Hmain|]. split; [exact Hout|]. exact Hstatus.
Defined.

Lemma C10_shared_line_witness :
  Forall readable sample_duplicate_files
  ∧ regular_file "03-functional.md"
      (sample_requirement "FR-001" +:+ "FR-001 and FR-002 may differ" +:+ nl)
    ∈ sample_duplicate_files
  ∧ ∃ index,
      id_lines_of
        (splitlines
           (sample_requirement "FR-001" +:+ "FR-001 and FR-002 may differ"
            +:+ nl)) !! index
      = Some (2, "FR-001")
      ∧ ∃ l1 l2,
          validate_requirements sample_duplicate_files
          = Ok (l1
                ++ [ mkFinding "error"
                       "FR-001 in 03-functional.md:2 does not contain shall/should/may.";
                     mkFinding "warning"
                       "FR-001 in 03-functional.md:2 is missing 'Priority:'.";
                     mkFinding "warning"
                       "FR-001 in 03-functional.md:2 is missing 'Verify:'.";
                     mkFinding "warning"
                       "FR-001 in 03-functional.md:2 is missing 'Release:'." ]
                ++ l2).
Proof.
  assert (regular_file "03-functional.md"
            (sample_requirement "FR-001" +:+ "FR-001 and FR-002 may differ"
             +:+ nl)
          ∈ sample_duplicate_files) as Hpath by left.
  split; [exact sample_duplicate_readable|]. split; [exact Hpath|].
  destruct (C10_shared_line sample_duplicate_files _ 1
              "FR-001 and FR-002 may differ" 0 "FR-001" "FR-002"
              sample_duplicate_readable Hpath)
    as (index & Hthis & _ & _ & _ & l1 & l2 & Hfindings);
    [by vm_compute..|].
  exists index. split; [exact Hthis|]. exists l1, l2. exact Hfindings.
Defined.

(* ===================================================================== *)
(** * Part IV: further properties of the script                           *)
(* ===================================================================== *)

(** ** Loading *)

(** The files loaded are exactly the regular files of the directory whose
    suffix is ".md" in any case, each as often as the directory lists it,
    and they come sorted by name; what is no directory loads nothing. *)
Theorem loaded_files_sorted_selection (target : fs_object) :
  Sorted path_le (load_markdown_files target)
  ∧ load_markdown_files target
    ≡ₚ List.filter
         (λ p, is_file p && String.eqb (lower (suffix p)) ".md")
         (iterdir target)
  ∧ (∀ p, p ∈ load_markdown_files target
          ↔ p ∈ iterdir target ∧ is_file p = true ∧ lower (suffix p) = ".md")
  ∧ (is_dir target = false → load_markdown_files target = []).
Proof.
  assert (load_markdown_files target
          ≡ₚ List.filter
               (λ p, is_file p && String.eqb (lower (suffix p)) ".md")
               (iterdir target)) as Hperm.
  { unfold load_markdown_files. apply merge_sort_Permutation. }
  split; [apply Sorted_merge_sort, _|]. split; [done|]. split.
  - intros p. rewrite Hperm. rewrite list_elem_of_In, filter_In.
    rewrite <- list_elem_of_In, andb_true_iff, String.eqb_eq. tauto.
  - intros Hdir. destruct target; [done..|discriminate].
Qed.

(** ** The required sections *)

(** Finds an element in a list given in full. *)
Ltac pick_elem :=
  first [ by apply list_elem_of_here | apply list_elem_of_further; pick_elem ].

Lemma flat_map_nil_iff {A B} (absent : A → bool) (emit : A → B) (l : list A) :
  flat_map (λ x, if absent x then [emit x] else []) l = []
  ↔ ∀ x, x ∈ l → absent x = false.
Proof.
  induction l as [|x l IH]; simpl.
  - split; [|done]. intros _ x Hx. by apply elem_of_nil in Hx.
  - destruct (absent x) eqn:Hx; simpl.
    + split; [done|]. intros Hall. specialize (Hall x). rewrite Hx in Hall.
      discriminate Hall. by left.
    + rewrite IH. split.
      * intros Hall y [->|Hy]%elem_of_cons; [done|by apply Hall].
      * intros Hall y Hy. apply Hall. by right.
Qed.

Lemma elem_of_flat_map_if {A B} (absent : A → bool) (emit : A → B)
    (l : list A) (y : B) :
  y ∈ flat_map (λ x, if absent x then [emit x] else []) l
  ↔ ∃ x, x ∈ l ∧ absent x = true ∧ y = emit x.
Proof.
  induction l as [|x l IH]; simpl.
  - split; [by intros ?%elem_of_nil|]. intros (x & Hx & _).
    by apply elem_of_nil in Hx.
  - rewrite elem_of_app, IH. split.
    + intros [Hy|(x' & Hx' & Habs & ->)].
      * destruct (absent x) eqn:Hx; [|by apply elem_of_nil in Hy].
        apply list_elem_of_singleton in Hy as ->. exists x.
        split; [by left|done].
      * exists x'. split; [by right|done].
    + intros (x' & [->|Hx']%elem_of_cons & Habs & ->).
      * left. rewrite Habs. by left.
      * right. by exists x'.
Qed.

Lemma validate_required_sections_emit (files : list Path) :
  validate_required_sections files
  = flat_map
      (λ entry,
         if negb (existsb (λ nm, startswith nm entry.1) (map name files))
         then [mkFinding "error"
                 ("Missing section " +:+ entry.1 +:+ " (" +:+ entry.2 +:+ ").")]
         else [])
      REQUIRED_SECTIONS.
Proof.
  unfold validate_required_sections.
  rewrite (fold_left_emit
             (λ entry,
                if negb (existsb (λ nm, startswith nm entry.1)
                           (map name files))
                then [mkFinding "error"
                        ("Missing section " +:+ entry.1 +:+ " (" +:+ entry.2
                         +:+ ").")]
                else [])); [done|].
  intros findings [prefix title] _. simpl.
  destruct (existsb _ _); simpl; [by rewrite app_nil_r|done].
Qed.

Lemma existsb_startswith (files : list Path) (prefix : string) :
  existsb (λ nm, startswith nm prefix) (map name files) = true
  ↔ ∃ p, p ∈ files ∧ startswith (name p) prefix = true.
Proof.
  rewrite existsb_exists. split.
  - intros (nm & (p & <- & Hp)%in_map_iff & Hnm). exists p.
    split; [by apply list_elem_of_In|done].
  - intros (p & Hp & Hnm). exists (name p). split; [|done].
    apply in_map. by apply list_elem_of_In.
Qed.

(** The required-sections check looks at the file names only.  It finds
    nothing exactly when each of the eight prefixes starts some file name;
    a prefix that starts none gets one error that names it and its title;
    there are no other findings. *)
Theorem required_sections_findings (files : list Path) :
  (validate_required_sections files = []
   ↔ ∀ prefix,
       prefix ∈ ["00"; "01"; "02"; "03"; "04"; "05"; "06"; "07"] →
       ∃ p, p ∈ files ∧ startswith (name p) prefix = true)
  ∧ (∀ prefix title,
       (prefix, title) ∈ REQUIRED_SECTIONS →
       mkFinding "error"
         ("Missing section " +:+ prefix +:+ " (" +:+ title +:+ ").")
       ∈ validate_required_sections files
       ↔ ¬ ∃ p, p ∈ files ∧ startswith (name p) prefix = true)
  ∧ (∀ f,
       f ∈ validate_required_sections files →
       ∃ prefix title,
         (prefix, title) ∈ REQUIRED_SECTIONS
         ∧ f = mkFinding "error"
                 ("Missing section " +:+ prefix +:+ " (" +:+ title +:+ ").")
         ∧ ¬ ∃ p, p ∈ files ∧ startswith (name p) prefix = true)
  ∧ length (validate_required_sections files) ≤ 8.
Proof.
  rewrite validate_required_sections_emit.
  split; [|split; [|split]].
  - rewrite flat_map_nil_iff. split.
    + intros Hall prefix Hprefix. apply existsb_startswith.
      assert (∃ title, (prefix, title) ∈ REQUIRED_SECTIONS) as [title Hin].
      { unfold REQUIRED_SECTIONS.
        repeat (apply elem_of_cons in Hprefix as [->|Hprefix];
                [eexists; pick_elem|]).
        by apply elem_of_nil in Hprefix. }
      specialize (Hall _ Hin). simpl in Hall.
      by apply negb_false_iff in Hall.
    + intros Hall [prefix title] Hin. simpl. apply negb_false_iff.
      apply existsb_startswith, Hall. unfold REQUIRED_SECTIONS in Hin.
      repeat (apply elem_of_cons in Hin as [[= -> ->]|Hin]; [pick_elem|]).
      by apply elem_of_nil in Hin.
  - intros prefix title Hin. rewrite elem_of_flat_map_if. split.
    + intros ([prefix' title'] & Hin' & Habsent & Heq) Hsome.
      simpl in Habsent, Heq. apply negb_true_iff in Habsent.
      apply existsb_startswith in Hsome.
      assert (prefix' = prefix) as ->; [|congruence].
      clear Habsent Hsome. unfold REQUIRED_SECTIONS in Hin, Hin'.
      repeat (apply elem_of_cons in Hin as [[= -> ->]|Hin]);
        try (by apply elem_of_nil in Hin);
        repeat (apply elem_of_cons in Hin' as [[= -> ->]|Hin']);
        try (by apply elem_of_nil in Hin'); done.
    + intros Hnone. exists (prefix, title). split; [done|]. simpl.
      split; [|done]. apply negb_true_iff.
      destruct (existsb _ _) eqn:Hex; [|done].
      apply existsb_startswith in Hex. done.
  - intros f ([prefix title] & Hin & Habsent & ->)%elem_of_flat_map_if.
    simpl in Habsent. exists prefix, title. split; [done|]. split; [done|].
    intros Hsome%existsb_startswith. by rewrite Hsome in Habsent.
  - unfold REQUIRED_SECTIONS. simpl.
    repeat (destruct (existsb _ _); simpl); lia.
Qed.

(** ** The change-control check *)

Lemma spaces_from_split (prev : option ascii) (s : string) :
  ∃ ws,
    s = ws +:+ (spaces_from prev s).2
    ∧ str_forallb is_space ws = true
    ∧ (spaces_from prev s).1 = prev_after prev ws.
Proof.
  revert prev. induction s as [|c s IH]; intros prev; simpl.
  - by exists EmptyString.
  - destruct (is_space c) eqn:Hc.
    + destruct (IH (Some c)) as (ws & Hs & Hws & Hprev).
      exists (String c ws). rewrite str_app_cons, <- Hs. simpl.
      rewrite Hc, Hws, prev_after_cons. done.
    + by exists EmptyString.
Qed.

Lemma spaces_from_app (prev : option ascii) (ws rest : string) :
  str_forallb is_space ws = true →
  (∀ c, first_char rest = Some c → is_space c = false) →
  spaces_from prev (ws +:+ rest) = (prev_after prev ws, rest).
Proof.
  intros Hws Hrest. revert prev Hws.
  induction ws as [|c ws IH]; intros prev Hws.
  - rewrite str_app_nil_l. destruct rest as [|c rest]; [done|].
    simpl. by rewrite (Hrest c).
  - simpl in Hws. apply andb_prop in Hws as [Hc Hws].
    rewrite str_app_cons. simpl. rewrite Hc, IH by done.
    by rewrite prev_after_cons.
Qed.

Lemma bol_Some (p q : pos) :
  bol p = Some q ↔ q = p ∧ (p.1 = None ∨ p.1 = Some "010"%char).
Proof.
  unfold bol. destruct p.1 as [c|].
  - destruct (Ascii.eqb_spec c "010") as [->|Hne].
    + split; [intros [= <-]; eauto|by intros [-> _]].
    + split; [done|]. intros [_ [?|[= ?]]]; done.
  - split; [intros [= <-]; eauto|by intros [-> _]].
Qed.

Lemma INITIAL_VERSION_ROW_is_Some (prev : option ascii) (s : string) :
  is_Some (INITIAL_VERSION_ROW (prev, s))
  ↔ (prev = None ∨ prev = Some "010"%char)
    ∧ ∃ ws1 ws2 post,
        s = "|" +:+ ws1 +:+ "0.1" +:+ ws2 +:+ "|" +:+ post
        ∧ str_forallb is_space ws1 = true
        ∧ str_forallb is_space ws2 = true.
Proof.
  unfold INITIAL_VERSION_ROW, and_then, spaces. split.
  - intros [q Hq].
    destruct (bol (prev, s)) as [p0|] eqn:H0; [|done].
    apply bol_Some in H0 as [-> Hprev]. simpl in Hprev.
    split; [done|].
    destruct (lit "|" (prev, s)) as [p1|] eqn:H1; [|done].
    apply lit_gen_iff in H1 as (w1 & r1 & -> & -> & ->). simpl in Hq.
    destruct (spaces_from_split (prev_after prev "|") r1)
      as (ws1 & Hr1 & Hws1 & _).
    destruct (lit "0.1" (spaces_from (prev_after prev "|") r1)) as [p3|] eqn:H3;
      [|done].
    destruct (spaces_from (prev_after prev "|") r1) as [pv2 r2].
    apply lit_gen_iff in H3 as (w3 & r3 & -> & -> & ->). simpl in Hq, Hr1.
    destruct (spaces_from_split (prev_after pv2 "0.1") r3)
      as (ws2 & Hr3 & Hws2 & _).
    destruct (spaces_from (prev_after pv2 "0.1") r3) as [pv4 r4].
    apply lit_gen_iff in Hq as (w5 & r5 & -> & -> & ->). simpl in Hr3.
    exists ws1, ws2, r5. by rewrite Hr1, Hr3.
  - intros (Hprev & ws1 & ws2 & post & -> & Hws1 & Hws2).
    assert (bol (prev, "|" +:+ ws1 +:+ "0.1" +:+ ws2 +:+ "|" +:+ post)
            = Some (prev, "|" +:+ ws1 +:+ "0.1" +:+ ws2 +:+ "|" +:+ post))
      as ->.
    { by apply bol_Some. }
    assert (lit "|" (prev, "|" +:+ ws1 +:+ "0.1" +:+ ws2 +:+ "|" +:+ post)
            = Some (prev_after prev "|",
                    ws1 +:+ "0.1" +:+ ws2 +:+ "|" +:+ post)) as ->.
    { apply lit_gen_iff. by eexists _, _. }
    simpl. rewrite spaces_from_app; [|done|by intros c [= <-]].
    assert (lit "0.1" (prev_after (prev_after prev "|") ws1,
                       "0.1" +:+ ws2 +:+ "|" +:+ post)
            = Some (prev_after (prev_after (prev_after prev "|") ws1) "0.1",
                    ws2 +:+ "|" +:+ post)) as ->.
    { apply lit_gen_iff. by eexists _, _. }
    simpl. rewrite spaces_from_app; [|done|by intros c [= <-]].
    eexists. apply lit_gen_iff. by eexists _, _.
Qed.

Lemma search_INITIAL_VERSION_ROW_iff (text : string) :
  search INITIAL_VERSION_ROW text = true ↔ has_initial_version_row text.
Proof.
  unfold search, has_initial_version_row, at_line_start.
  rewrite search_from_iff. split.
  - intros (pre & post & -> & Hm).
    apply INITIAL_VERSION_ROW_is_Some
      in Hm as (Hprev & ws1 & ws2 & rest & -> & Hws1 & Hws2).
    rewrite prev_after_None in Hprev. by exists pre, ws1, ws2, rest.
  - intros (pre & ws1 & ws2 & post & -> & Hpre & Hws1 & Hws2).
    exists pre, ("|" +:+ ws1 +:+ "0.1" +:+ ws2 +:+ "|" +:+ post).
    split; [done|]. apply INITIAL_VERSION_ROW_is_Some.
    rewrite prev_after_None. split; [done|]. by exists ws1, ws2, post.
Qed.

(** The change-control check reads the first file named "07..." and no
    other.  Without such a file it finds nothing; if that file cannot be read
    it raises; otherwise it reports an error when the text lacks the table
    header and then a warning when no line starts with a row for version
    0.1. *)
Theorem change_control_findings (files : list Path) :
  (List.find (λ p, startswith (name p) "07") files = None →
   validate_change_control files = Ok [])
  ∧ (∀ change_file,
       List.find (λ p, startswith (name p) "07") files = Some change_file →
       (¬ readable change_file →
        validate_change_control files = Raise (ReadError (name change_file)))
       ∧ (readable change_file →
          validate_change_control files
          = Ok ((if str_in "| Version | Date | Author | Changes |"
                      (text_of change_file)
                 then []
                 else [mkFinding "error"
                         (name change_file
                          +:+ " is missing the required version history table header.")])
                ++ (if search INITIAL_VERSION_ROW (text_of change_file)
                    then []
                    else [mkFinding "warning"
                            (name change_file
                             +:+ " does not include an initial 0.1 version row.")])))
       ∧ (str_in "| Version | Date | Author | Changes |" (text_of change_file)
          = true
          ↔ substring_of "| Version | Date | Author | Changes |"
              (text_of change_file))
       ∧ (search INITIAL_VERSION_ROW (text_of change_file) = true
          ↔ has_initial_version_row (text_of change_file))).
Proof.
  split.
  - intros Hnone. unfold validate_change_control. by rewrite Hnone.
  - intros change_file Hsome. split; [|split; [|split]].
    + intros Hunreadable. unfold validate_change_control.
      by rewrite Hsome, (read_text_unreadable _ Hunreadable).
    + intros Hreadable. unfold validate_change_control.
      rewrite Hsome, (read_text_readable _ Hreadable), bind_Ok.
      destruct (str_in _ _), (search _ _); done.
    + apply str_in_iff.
    + apply search_INITIAL_VERSION_ROW_iff.
Qed.

(** ** The RTM check *)

Lemma flat_map_filter {A B} (keep : A → bool) (emit : A → list B)
    (l : list A) :
  flat_map emit (List.filter keep l)
  = flat_map (λ x, if keep x then emit x else []) l.
Proof.
  induction l as [|x l IH]; simpl; [done|].
  destruct (keep x); simpl; by rewrite IH.
Qed.

(** The RTM check reads the files whose lower-cased name starts with "rtm"
    and no other file.  When those can be read it reports, in file order,
    one warning for each of them whose text lacks the header row, and
    nothing else. *)
Theorem rtm_findings (files : list Path) :
  (∀ p, p ∈ files → startswith (lower (name p)) "rtm" = true → readable p) →
  validate_rtm files
  = Ok (flat_map
          (λ p,
             if startswith (lower (name p)) "rtm"
                && negb (str_in
                           "| Req ID | Requirement | Source/Need | Design Ref | Test Case | Status |"
                           (text_of p))
             then [mkFinding "warning"
                     (name p +:+ " is missing the recommended RTM header row.")]
             else [])
          files).
Proof.
  intros Hreadable. unfold validate_rtm.
  rewrite (for_each_emit
    (λ path,
       if str_in
            "| Req ID | Requirement | Source/Need | Design Ref | Test Case | Status |"
            (text_of path)
       then []
       else [mkFinding "warning"
               (name path +:+ " is missing the recommended RTM header row.")])).
  - rewrite flat_map_filter. simpl. f_equal. apply flat_map_ext. intros p.
    destruct (startswith (lower (name p)) "rtm"); [|done].
    by destruct (str_in _ (text_of p)).
  - intros findings path Hpath.
    apply list_elem_of_In, filter_In in Hpath as [Hpath Hrtm].
    rewrite (read_text_readable path), bind_Ok
      by (apply Hreadable; [by apply list_elem_of_In|done]).
    destruct (str_in _ (text_of path)); simpl; [by rewrite app_nil_r|done].
Qed.

Lemma rtm_findings_witness :
  (∀ p, p ∈ sample_rtm_files → startswith (lower (name p)) "rtm" = true →
        readable p)
  ∧ validate_rtm sample_rtm_files
    = Ok [mkFinding "warning"
            "RTM-core.md is missing the recommended RTM header row."].
Proof.
  assert (∀ p, p ∈ sample_rtm_files →
               startswith (lower (name p)) "rtm" = true → readable p)
    as Hreadable.
  { intros p Hp Hrtm. unfold sample_rtm_files in Hp.
    repeat (apply elem_of_cons in Hp as [->|Hp]);
      [discriminate Hrtm|by eexists..|by apply elem_of_nil in Hp]. }
  split; [exact Hreadable|].
  rewrite (rtm_findings sample_rtm_files Hreadable). vm_compute. reflexivity.
Defined.

(** ** What the identifier pattern finds *)

Lemma is_digit_is_word (d : ascii) : is_digit d = true → is_word d = true.
Proof. destruct d as [[] [] [] [] [] [] [] []]; done. Qed.

Lemma category_first_char (category : string) :
  category ∈ REQ_ID_CATEGORIES → word_at (first_char category) = true.
Proof.
  unfold REQ_ID_CATEGORIES. intros Hcat.
  repeat (apply elem_of_cons in Hcat as [->|Hcat]; [done|]).
  by apply elem_of_nil in Hcat.
Qed.

Lemma peek_first_char (prev : option ascii) (s : string) :
  peek (prev, s) = first_char s.
Proof. reflexivity. Qed.

Lemma well_formed_first_char (r rest : string) :
  well_formed_id r → word_at (first_char (r +:+ rest)) = true.
Proof.
  intros (category & d1 & d2 & d3 & Hcat & _ & _ & _ & ->).
  rewrite str_app_assoc, first_char_app.
  pose proof (category_first_char category Hcat) as Hfirst.
  by destruct (first_char category).
Qed.

(** The pattern matches at a position exactly when a well-formed identifier
    starts there with no word character before or after it. *)
Lemma REQ_ID_PATTERN_is_Some (prev : option ascii) (s : string) :
  (∃ q, REQ_ID_PATTERN (prev, s) = Some q)
  ↔ ∃ r rest,
      s = r +:+ rest ∧ well_formed_id r
      ∧ word_at prev = false ∧ word_at (first_char rest) = false.
Proof.
  split.
  - intros [q Hm]. unfold REQ_ID_PATTERN in Hm. unfold and_then at 1 in Hm.
    destruct (wb (prev, s)) as [p|] eqn:Hwb; [|done].
    apply wb_Some in Hwb as [-> Hb]. simpl in Hb.
    apply alt_Some in Hm as (a & Ha & Hm).
    apply list_elem_of_fmap in Ha as (category & -> & Hcat).
    unfold and_then in Hm.
    destruct (lit category (prev, s)) as [p1|] eqn:H1; [|done].
    apply lit_gen_iff in H1 as (w & r1 & -> & -> & ->).
    destruct (lit "-" (prev_after prev category, r1)) as [p2|] eqn:H2; [|done].
    apply lit_gen_iff in H2 as (w & r2 & -> & -> & ->).
    destruct (digit _) as [p3|] eqn:H3; [|done].
    apply char_if_Some in H3 as (d1 & r3 & -> & Hd1 & ->).
    destruct (digit _) as [p4|] eqn:H4; [|done].
    apply char_if_Some in H4 as (d2 & r4 & -> & Hd2 & ->).
    destruct (digit _) as [p5|] eqn:H5; [|done].
    apply char_if_Some in H5 as (d3 & r5 & -> & Hd3 & ->).
    apply wb_Some in Hm as [-> Hb']. simpl in Hb'.
    rewrite peek_first_char, (is_digit_is_word _ Hd3) in Hb'.
    exists (category +:+ String "-" (String d1 (String d2 (String d3 "")))), r5.
    assert (well_formed_id
              (category +:+ String "-" (String d1 (String d2 (String d3 "")))))
      as Hwf by (by exists category, d1, d2, d3).
    split; [by rewrite str_app_assoc|]. split; [done|].
    rewrite peek_first_char in Hb.
    change (category +:+ "-" +:+ String d1 (String d2 (String d3 r5)))
      with (category
            +:+ String "-" (String d1 (String d2 (String d3 ""))) +:+ r5)
      in Hb.
    rewrite <- str_app_assoc, (well_formed_first_char _ _ Hwf) in Hb.
    split; [by destruct (word_at prev)|by destruct (word_at (first_char r5))].
  - intros (r & rest & -> & Hr & Hprev & Hrest).
    pose proof (well_formed_first_char r rest Hr) as Hfirst.
    destruct Hr as (category & d1 & d2 & d3 & Hcat & Hd1 & Hd2 & Hd3 & ->).
    unfold REQ_ID_PATTERN. unfold and_then at 1.
    assert (wb (prev,
                (category +:+ String "-" (String d1 (String d2 (String d3 ""))))
                +:+ rest)
            = Some (prev,
                    (category
                     +:+ String "-" (String d1 (String d2 (String d3 ""))))
                    +:+ rest)) as ->.
    { apply wb_Some. split; [done|]. simpl.
      by rewrite peek_first_char, Hfirst, Hprev. }
    apply (alt_is_Some (map lit REQ_ID_CATEGORIES)).
    exists (lit category). split.
    { apply list_elem_of_fmap. by exists category. }
    rewrite str_app_assoc. unfold and_then.
    assert (lit category
              (prev,
               category
               +:+ String "-" (String d1 (String d2 (String d3 ""))) +:+ rest)
            = Some (prev_after prev category,
                    String "-" (String d1 (String d2 (String d3 rest)))))
      as ->.
    { apply lit_gen_iff. by eexists _, _. }
    assert (lit "-" (prev_after prev category,
                     String "-" (String d1 (String d2 (String d3 rest))))
            = Some (Some "-"%char, String d1 (String d2 (String d3 rest))))
      as ->.
    { apply lit_gen_iff. by exists "-", (String d1 (String d2 (String d3 rest))). }
    assert (∀ d rest' prev',
              is_digit d = true →
              digit (prev', String d rest') = Some (Some d, rest')) as Hdigit.
    { intros d rest' prev' Hd. apply char_if_Some. by exists d, rest'. }
    rewrite !Hdigit by done.
    eexists. apply wb_Some. split; [done|]. simpl.
    by rewrite peek_first_char, (is_digit_is_word _ Hd3), Hrest.
Qed.

Lemma REQ_ID_PATTERN_at_end (prev : option ascii) :
  REQ_ID_PATTERN (prev, EmptyString) = None.
Proof.
  destruct (REQ_ID_PATTERN (prev, EmptyString)) as [q|] eqn:Hq; [|done].
  destruct (REQ_ID_PATTERN_Some _ _ _ Hq) as (r & Hr & Hs).
  by_category Hr; discriminate.
Qed.

Lemma search_from_tail (m : pos → option pos) (prev : option ascii)
    (c : ascii) (s : string) :
  search_from m (Some c) s = true → search_from m prev (String c s) = true.
Proof. intros Htail. simpl. by destruct (m (prev, String c s)). Qed.

Lemma finditer_from_nonempty (skip : nat) (prev : option ascii) (s : string) :
  finditer_from REQ_ID_PATTERN skip prev s ≠ [] →
  search_from REQ_ID_PATTERN prev s = true.
Proof.
  revert skip prev. induction s as [|c s IH]; intros skip prev; [done|].
  cbn [finditer_from]. destruct skip as [|k].
  - destruct (REQ_ID_PATTERN (prev, String c s)) as [q|] eqn:Hm.
    + intros _. simpl. by rewrite Hm.
    + intros Hne. apply search_from_tail. by eapply IH.
  - intros Hne. apply search_from_tail. by eapply IH.
Qed.

Lemma search_from_finditer (prev : option ascii) (s : string) :
  search_from REQ_ID_PATTERN prev s = true →
  finditer_from REQ_ID_PATTERN 0 prev s ≠ [].
Proof.
  revert prev. induction s as [|c s IH]; intros prev.
  - simpl. by rewrite REQ_ID_PATTERN_at_end.
  - cbn [finditer_from search_from].
    destruct (REQ_ID_PATTERN (prev, String c s)) as [q|] eqn:Hm; [done|].
    apply IH.
Qed.

Lemma search_REQ_ID_PATTERN_iff (text : string) :
  search REQ_ID_PATTERN text = true ↔ has_req_id text.
Proof.
  unfold search, has_req_id. rewrite search_from_iff. split.
  - intros (pre & post & -> & [q Hq]).
    assert (∃ q, REQ_ID_PATTERN (prev_after None pre, post) = Some q) as Hm
      by eauto.
    apply REQ_ID_PATTERN_is_Some in Hm as (r & rest & -> & Hr & Hp & Hrest).
    rewrite prev_after_None in Hp. by exists pre, r, rest.
  - intros (pre & r & post & -> & Hr & Hp & Hpost).
    exists pre, (r +:+ post). split; [done|].
    assert (∃ q, REQ_ID_PATTERN (prev_after None pre, r +:+ post) = Some q)
      as [q Hq]; [|eauto].
    apply REQ_ID_PATTERN_is_Some. exists r, post.
    by rewrite prev_after_None.
Qed.

Lemma finditer_from_sound (r : string) (s : string) :
  ∀ skip prev,
    r ∈ finditer_from REQ_ID_PATTERN skip prev s →
    ∃ pre post,
      s = pre +:+ r +:+ post ∧ well_formed_id r
      ∧ word_at (prev_after prev pre) = false
      ∧ word_at (first_char post) = false.
Proof.
  induction s as [|c s IH]; intros skip prev Hr.
  { by apply elem_of_nil in Hr. }
  assert ((∃ k, r ∈ finditer_from REQ_ID_PATTERN k (Some c) s)
          ∨ (∃ q, REQ_ID_PATTERN (prev, String c s) = Some q
                  ∧ r = group0 (String c s) q)) as [[k Htail]|Hhere].
  { cbn [finditer_from] in Hr. destruct skip as [|k]; [|eauto].
    destruct (REQ_ID_PATTERN (prev, String c s)) as [q|] eqn:Hm; [|eauto].
    apply elem_of_cons in Hr as [->|Hr]; eauto. }
  - destruct (IH _ _ Htail) as (pre & post & -> & Hwf & Hp & Hpost).
    exists (String c pre), post. by rewrite prev_after_cons.
  - destruct Hhere as (q & Hq & ->).
    assert (∃ q, REQ_ID_PATTERN (prev, String c s) = Some q) as Hm by eauto.
    apply REQ_ID_PATTERN_is_Some in Hm as (r & rest & Hs & Hr' & Hp & Hrest).
    destruct (REQ_ID_PATTERN_Some _ _ _ Hq) as (r2 & Hr2 & Hs2).
    exists EmptyString, q.2. rewrite str_app_nil_l.
    destruct q as [prev' rest']. simpl in *.
    rewrite Hs2, group0_app. split; [done|]. split; [done|].
    split; [done|].
    rewrite Hs in Hs2.
    assert (r = r2 ∧ rest = rest') as [_ <-]; [|done].
    by_category Hr'; by_category Hr2; normalize_text Hs2; by simplify_eq.
Qed.

(** What [REQ_ID_PATTERN] searches and finds in a text: a match exists
    exactly when the text holds a category, a hyphen and three digits with no
    word character directly before or after; [finditer] finds something
    exactly then, and each thing it finds is such an identifier at such a
    place. *)
Theorem identifiers_found (text : string) :
  (search REQ_ID_PATTERN text = true ↔ has_req_id text)
  ∧ (finditer REQ_ID_PATTERN text ≠ [] ↔ has_req_id text)
  ∧ (∀ r, r ∈ finditer REQ_ID_PATTERN text →
          ∃ pre post,
            text = pre +:+ r +:+ post ∧ well_formed_id r
            ∧ word_at (last_char pre) = false
            ∧ word_at (first_char post) = false).
Proof.
  split; [apply search_REQ_ID_PATTERN_iff|]. split.
  - rewrite <- search_REQ_ID_PATTERN_iff. unfold finditer, search. split.
    + apply finditer_from_nonempty.
    + apply search_from_finditer.
  - intros r Hr. unfold finditer in Hr.
    destruct (finditer_from_sound r text 0 None Hr)
      as (pre & post & -> & Hwf & Hp & Hpost).
    rewrite prev_after_None in Hp. by exists pre, post.
Qed.

(** ** How the requirements check ends *)

Lemma requirements_body_unreadable
    (st : list Finding * gmap string (Path * nat)) (p : Path) :
  ¬ readable p → requirements_body st p = Raise (ReadError (name p)).
Proof.
  intros Hp. destruct st as [findings seen_ids]. unfold requirements_body.
  by rewrite (read_text_unreadable p Hp).
Qed.

Lemma requirements_files_raise (before : list Path) (p : Path)
    (after : list Path) :
  Forall readable before → ¬ readable p →
  ∀ findings seen_ids,
    for_each (before ++ p :: after) requirements_body (findings, seen_ids)
    = Raise (ReadError (name p)).
Proof.
  intros Hbefore Hp. induction Hbefore as [|q before Hq Hbefore IH];
    intros findings seen_ids.
  - cbn [app]. by rewrite for_each_cons, requirements_body_unreadable.
  - cbn [app]. rewrite for_each_cons, (requirements_body_emit _ _ _ Hq), bind_Ok.
    apply IH.
Qed.

(** The requirements check either reads every file and returns its
    findings, or raises the read failure of the first file that cannot be
    read; the lookup of a category in [CATEGORY_PREFIX] never fails. *)
Theorem requirements_outcome (files : list Path) :
  ((Forall readable files ∧ ∃ findings, validate_requirements files = Ok findings)
   ∨ ∃ before p after,
       files = before ++ p :: after ∧ Forall readable before ∧ ¬ readable p
       ∧ validate_requirements files = Raise (ReadError (name p)))
  ∧ ∀ key, validate_requirements files ≠ Raise (KeyError key).
Proof.
  destruct (readable_or_first files)
    as [Hall|(before & p & after & -> & Hbefore & Hp)].
  - rewrite validate_requirements_emit by done. split; [|done].
    left. eauto.
  - assert (validate_requirements (before ++ p :: after)
            = Raise (ReadError (name p))) as Hraise.
    { unfold validate_requirements.
      by rewrite requirements_files_raise. }
    rewrite Hraise. split; [|done]. right. by exists before, p, after.
Qed.

(** ** Category coverage *)

Lemma well_formed_not_S (r rest : string) :
  well_formed_id r → first_char (r +:+ rest) ≠ Some "S"%char.
Proof. intros Hr. by_category Hr; done. Qed.

Lemma scan_emits_not_S (path : Path) (id_lines : list (nat * string)) :
  Forall (λ entry, well_formed_id entry.2) id_lines →
  ∀ seen_ids f,
    f ∈ scan_emits seen_ids path id_lines →
    first_char (message f) ≠ Some "S"%char.
Proof.
  induction 1 as [|entry id_lines Hentry Hrest IH]; intros seen_ids f Hf.
  { by apply elem_of_nil in Hf. }
  cbn [scan_emits] in Hf. apply elem_of_app in Hf as [Hf|Hf]; [|by eapply IH].
  unfold scan_emit in Hf. apply elem_of_app in Hf as [Hf|Hf].
  - destruct (seen_ids !! entry.2) as [[original_path original_line]|];
      [|by apply elem_of_nil in Hf].
    by apply list_elem_of_singleton in Hf as ->.
  - destruct (misplaced _); [|by apply elem_of_nil in Hf].
    apply list_elem_of_singleton in Hf as ->.
    by apply well_formed_not_S.
Qed.

Lemma block_emits_not_S (path : Path) (lines : list string)
    (id_lines : list (nat * string)) (f : Finding) :
  Forall (λ entry, well_formed_id entry.2) id_lines →
  f ∈ block_emits path lines id_lines →
  first_char (message f) ≠ Some "S"%char.
Proof.
  intros Hwf Hf. unfold block_emits in Hf.
  apply list_elem_of_In, in_flat_map in Hf
    as ([index [line_no req_id]] & Hin & Hf).
  apply list_elem_of_In, enumerate_elem_of in Hin.
  rewrite Forall_forall in Hwf. specialize (Hwf _ Hin). simpl in Hwf.
  apply list_elem_of_In in Hf. unfold block_findings in Hf.
  apply elem_of_app in Hf as [Hf|Hf].
  - destruct (search _ _); [by apply elem_of_nil in Hf|].
    apply list_elem_of_singleton in Hf as ->. by apply well_formed_not_S.
  - apply list_elem_of_In, in_flat_map in Hf as (field & _ & Hf).
    destruct (str_in _ _); [done|]. destruct Hf as [<-|[]].
    by apply well_formed_not_S.
Qed.

Lemma files_emits_not_S (files : list Path) :
  ∀ seen_ids f,
    f ∈ files_emits seen_ids files → first_char (message f) ≠ Some "S"%char.
Proof.
  induction files as [|p files IH]; intros seen_ids f Hf.
  { by apply elem_of_nil in Hf. }
  cbn [files_emits] in Hf. apply elem_of_app in Hf as [Hf|Hf]; [|by eapply IH].
  unfold file_emits in Hf. apply elem_of_app in Hf as [Hf|Hf].
  - eapply scan_emits_not_S; [apply id_lines_of_well_formed|done].
  - eapply block_emits_not_S; [apply id_lines_of_well_formed|done].
Qed.

Lemma existsb_search_false (section_files : list Path) :
  existsb (λ p, search REQ_ID_PATTERN (text_of p)) section_files = false
  ↔ ∀ p, p ∈ section_files → ¬ has_req_id (text_of p).
Proof.
  rewrite <- not_true_iff_false, existsb_exists. split.
  - intros Hnone p Hp Hid. apply Hnone. exists p.
    split; [by apply list_elem_of_In|by apply search_REQ_ID_PATTERN_iff].
  - intros Hnone (p & Hp & Hsearch). apply (Hnone p).
    + by apply list_elem_of_In.
    + by apply search_REQ_ID_PATTERN_iff.
Qed.

(** When every file can be read, the requirements check warns that section
    02, 03, 04, 05 or 06 has no identifier exactly when some file name starts
    with that prefix and none of those files holds an identifier, of whatever
    category. *)
Theorem coverage_warnings (files : list Path) :
  Forall readable files →
  ∃ findings,
    validate_requirements files = Ok findings
    ∧ ∀ prefix,
        prefix ∈ ["02"; "03"; "04"; "05"; "06"] →
        mkFinding "warning"
          ("Section " +:+ prefix +:+ " has no requirement IDs detected.")
        ∈ findings
        ↔ (∃ p, p ∈ files ∧ startswith (name p) prefix = true)
          ∧ ∀ p, p ∈ files → startswith (name p) prefix = true →
                 ¬ has_req_id (text_of p).
Proof.
  intros Hfiles. exists (files_emits ∅ files ++ coverage_emits files).
  split; [by apply validate_requirements_emit|].
  intros prefix Hprefix. rewrite elem_of_app.
  assert (mkFinding "warning" (coverage_message prefix) ∈ coverage_emits files
          ↔ (∃ p, p ∈ files ∧ startswith (name p) prefix = true)
            ∧ ∀ p, p ∈ files → startswith (name p) prefix = true →
                   ¬ has_req_id (text_of p)) as Hcov.
  { unfold coverage_emits. rewrite list_elem_of_In, in_flat_map. split.
    - intros (prefix' & Hprefix' & Hin).
      destruct (List.filter (λ p, startswith (name p) prefix') files)
        as [|q section_files] eqn:Hsection; [done|].
      destruct (existsb _ (q :: section_files)) eqn:Hnone; [done|].
      destruct Hin as [Heq|[]].
      assert (prefix' = prefix) as ->.
      { apply list_elem_of_In in Hprefix'. clear -Hprefix Hprefix' Heq.
        repeat (apply elem_of_cons in Hprefix as [->|Hprefix]);
          try (by apply elem_of_nil in Hprefix);
          repeat (apply elem_of_cons in Hprefix' as [->|Hprefix']);
          try (by apply elem_of_nil in Hprefix'); done. }
      rewrite <- Hsection in Hnone. split.
      + exists q. assert (In q (List.filter (λ p, startswith (name p) prefix)
                                  files)) as Hq by (rewrite Hsection; by left).
        apply filter_In in Hq as [Hq Hstart].
        split; [by apply list_elem_of_In|done].
      + intros p Hp Hstart. apply (proj1 (existsb_search_false _) Hnone).
        apply list_elem_of_In, filter_In.
        split; [by apply list_elem_of_In|done].
    - intros [(q & Hq & Hstart) Hnone]. exists prefix.
      split; [by apply list_elem_of_In|].
      assert (In q (List.filter (λ p, startswith (name p) prefix) files))
        as Hin.
      { apply filter_In. split; [by apply list_elem_of_In|done]. }
      destruct (List.filter (λ p, startswith (name p) prefix) files)
        as [|q' section_files] eqn:Hsection; [done|].
      rewrite <- Hsection.
      assert (existsb (λ p, search REQ_ID_PATTERN (text_of p))
                (List.filter (λ p, startswith (name p) prefix) files) = false)
        as ->.
      { apply existsb_search_false. intros p Hp.
        apply list_elem_of_In, filter_In in Hp as [Hp Hstart'].
        apply Hnone; [by apply list_elem_of_In|done]. }
      by left. }
  unfold coverage_message in Hcov. rewrite <- Hcov. split; [|by right].
  intros [Hf|Hf]; [|done].
  by apply files_emits_not_S in Hf.
Qed.

Lemma sample_coverage_readable : Forall readable sample_coverage_files.
Proof. repeat constructor; by eexists. Qed.

Lemma coverage_warnings_witness :
  Forall readable sample_coverage_files
  ∧ ∃ findings,
      validate_requirements sample_coverage_files = Ok findings
      ∧ mkFinding "warning" "Section 04 has no requirement IDs detected."
        ∈ findings
      ∧ ¬ mkFinding "warning" "Section 05 has no requirement IDs detected."
          ∈ findings.
Proof.
  split; [exact sample_coverage_readable|].
  destruct (coverage_warnings _ sample_coverage_readable)
    as (findings & Hok & Hcov).
  exists findings. split; [exact Hok|]. split.
  - apply (Hcov "04"); [pick_elem|]. split.
    + exists (regular_file "04-data.md" "see DR-0001 and XDR-001").
      split; [pick_elem|done].
    + intros p Hp Hstart Hid.
      apply search_REQ_ID_PATTERN_iff in Hid.
      unfold sample_coverage_files in Hp.
      repeat (apply elem_of_cons in Hp as [->|Hp]; [discriminate|]).
      by apply elem_of_nil in Hp.
  - intros Hin. apply (Hcov "05") in Hin as [_ Hnone]; [|pick_elem].
    apply (Hnone (regular_file "05-quality.md" (sample_requirement "FR-001")));
      [pick_elem|done|].
    apply search_REQ_ID_PATTERN_iff. by vm_compute.
Defined.

(** ** The definition sites kept in [seen_ids] *)

Lemma register_lookup (path : Path) (seen_ids : gmap string (Path * nat))
    (entry : nat * string) (req : string) :
  register path seen_ids entry !! req
  = match seen_ids !! req with
    | Some site => Some site
    | None => if String.eqb entry.2 req then Some (path, entry.1) else None
    end.
Proof.
  unfold register. destruct (String.eqb_spec entry.2 req) as [->|Hne].
  - destruct (seen_ids !! req) as [site|] eqn:Hseen; [by rewrite Hseen|].
    by rewrite lookup_insert_eq.
  - destruct (seen_ids !! entry.2) as [site|] eqn:Hseen.
    + by destruct (seen_ids !! req).
    + rewrite lookup_insert_ne by done. by destruct (seen_ids !! req).
Qed.

Lemma fold_register_lookup (path : Path) (id_lines : list (nat * string))
    (req : string) :
  ∀ seen_ids,
    fold_left (register path) id_lines seen_ids !! req
    = match seen_ids !! req with
      | Some site => Some site
      | None =>
          (λ o, (occ_path o, occ_line o))
          <$> head (List.filter (λ o, String.eqb (occ_req o) req)
                      (map (mk_occurrence path) id_lines))
      end.
Proof.
  induction id_lines as [|entry id_lines IH]; intros seen_ids.
  - simpl. by destruct (seen_ids !! req).
  - cbn [fold_left map List.filter]. rewrite IH, register_lookup.
    destruct (seen_ids !! req) as [site|]; [done|].
    cbn [mk_occurrence occ_req]. by destruct (String.eqb entry.2 req).
Qed.

Lemma files_seen_lookup (files : list Path) (req : string) :
  ∀ seen_ids,
    fold_left file_seen files seen_ids !! req
    = match seen_ids !! req with
      | Some site => Some site
      | None => first_site req files
      end.
Proof.
  unfold first_site, occurrences_of.
  induction files as [|p files IH]; intros seen_ids.
  - simpl. by destruct (seen_ids !! req).
  - cbn [fold_left]. rewrite IH. unfold file_seen.
    rewrite fold_register_lookup, occurrences_cons, List.filter_app.
    destruct (seen_ids !! req) as [site|]; [done|].
    by destruct (List.filter _ (map (mk_occurrence p) _)).
Qed.

Lemma requirements_files_seen (files : list Path) :
  Forall readable files →
  ∀ findings seen_ids,
    for_each files requirements_body (findings, seen_ids)
    = Ok (findings ++ files_emits seen_ids files,
          fold_left file_seen files seen_ids).
Proof.
  induction 1 as [|path files Hpath Hfiles IH]; intros findings seen_ids.
  - simpl. by rewrite app_nil_r.
  - rewrite for_each_cons, (requirements_body_emit _ _ _ Hpath), bind_Ok.
    cbn [files_emits fold_left]. by rewrite IH, <- app_assoc.
Qed.

(** When the loop over the files ends, [seen_ids] holds for each identifier
    that occurs the file and line of its first occurrence in scan order, and
    holds nothing for any other text. *)
Theorem seen_ids_first_site (files : list Path) :
  Forall readable files →
  ∃ findings seen_ids,
    for_each files requirements_body ([], ∅) = Ok (findings, seen_ids)
    ∧ (∀ req,
         seen_ids !! req
         = (λ o, (occ_path o, occ_line o))
           <$> head (List.filter (λ o, String.eqb (occ_req o) req)
                       (occurrences files)))
    ∧ (∀ req,
         is_Some (seen_ids !! req) ↔ req ∈ map occ_req (occurrences files)).
Proof.
  intros Hfiles.
  exists (files_emits ∅ files), (fold_left file_seen files ∅).
  split; [by rewrite requirements_files_seen|].
  assert (∀ req,
            fold_left file_seen files ∅ !! req
            = (λ o, (occ_path o, occ_line o))
              <$> head (List.filter (λ o, String.eqb (occ_req o) req)
                          (occurrences files))) as Hsite.
  { intros req. by rewrite files_seen_lookup, lookup_empty. }
  split; [done|]. intros req. rewrite Hsite. split.
  - intros [site Hsome].
    destruct (List.filter _ (occurrences files)) as [|o occs] eqn:Hoccs;
      [done|].
    assert (In o (List.filter (λ o, String.eqb (occ_req o) req)
                    (occurrences files))) as Ho by (rewrite Hoccs; by left).
    apply filter_In in Ho as [Ho Heq]. apply String.eqb_eq in Heq as <-.
    apply list_elem_of_fmap. exists o. split; [done|by apply list_elem_of_In].
  - intros (o & -> & Ho)%list_elem_of_fmap.
    destruct (List.filter _ (occurrences files)) as [|o' occs] eqn:Hoccs;
      [|by eexists].
    assert (In o (List.filter (λ o', String.eqb (occ_req o') (occ_req o))
                    (occurrences files))) as Hin.
    { apply filter_In. split; [by apply list_elem_of_In|apply String.eqb_refl]. }
    by rewrite Hoccs in Hin.
Qed.

Lemma seen_ids_first_site_witness :
  Forall readable sample_duplicate_files
  ∧ ∃ findings seen_ids,
      for_each sample_duplicate_files requirements_body ([], ∅)
      = Ok (findings, seen_ids)
      ∧ seen_ids !! "FR-001"
        = Some (regular_file "03-functional.md"
                  (sample_requirement "FR-001"
                   +:+ "FR-001 and FR-002 may differ" +:+ nl), 1)
      ∧ seen_ids !! "FR-002"
        = Some (regular_file "03-functional.md"
                  (sample_requirement "FR-001"
                   +:+ "FR-001 and FR-002 may differ" +:+ nl), 2)
      ∧ seen_ids !! "FR-003" = None.
Proof.
  split; [exact sample_duplicate_readable|].
  destruct (seen_ids_first_site sample_duplicate_files
              sample_duplicate_readable)
    as (findings & seen_ids & Hloop & Hsite & _).
  exists findings, seen_ids. split; [exact Hloop|].
  rewrite !Hsite. by vm_compute.
Defined.

(** ** Line numbers and block bounds *)

Lemma id_lines_from_lookup (lines : list string) :
  ∀ start index line_no r,
    id_lines_from start lines !! index = Some (line_no, r) →
    start ≤ line_no < start + length lines
    ∧ ∃ line,
        lines !! (line_no - start) = Some line
        ∧ r ∈ finditer REQ_ID_PATTERN line.
Proof.
  induction lines as [|line lines IH]; intros start index line_no r Hlookup.
  { by destruct index. }
  rewrite id_lines_from_cons in Hlookup.
  apply lookup_app_Some in Hlookup as [Hhere|[_ Hlater]].
  - apply list_elem_of_lookup_2, list_elem_of_fmap in Hhere
      as (r' & [= -> ->] & Hr').
    simpl. split; [lia|]. exists line. by rewrite Nat.sub_diag.
  - destruct (IH _ _ _ _ Hlater) as [Hrange (line' & Hline' & Hr)].
    simpl. split; [lia|]. exists line'. split; [|done].
    replace (line_no - start) with (S (line_no - S start)) by lia. done.
Qed.

Lemma id_lines_from_ordered (lines : list string) :
  ∀ start i j a b,
    i ≤ j →
    id_lines_from start lines !! i = Some a →
    id_lines_from start lines !! j = Some b →
    a.1 ≤ b.1.
Proof.
  induction lines as [|line lines IH]; intros start i j a b Hij Ha Hb.
  { by destruct i. }
  rewrite id_lines_from_cons in Ha, Hb.
  apply lookup_app_Some in Ha as [Ha|[Hi Ha]].
  - apply list_elem_of_lookup_2, list_elem_of_fmap in Ha as (r & -> & _).
    simpl. destruct b as [line_no r'].
    assert ((map (pair start) (finditer REQ_ID_PATTERN line)
             ++ id_lines_from (S start) lines) !! j = Some (line_no, r'))
      as Hb' by done.
    apply lookup_app_Some in Hb' as [Hb'|[_ Hb']].
    + by apply list_elem_of_lookup_2, list_elem_of_fmap in Hb'
        as (r'' & [= -> ->] & _).
    + apply id_lines_from_lookup in Hb' as [Hrange _]. simpl. lia.
  - apply lookup_app_Some in Hb as [Hb|[Hj Hb]].
    + apply lookup_lt_Some in Hb. lia.
    + eapply (IH (S start)); [|done..]. lia.
Qed.

(** Every entry of [id_lines] carries a line number of the file, and the
    identifier was found on that line; the entries come in line order, so
    the block of an entry never starts after its end and never ends past
    the last line. *)
Theorem block_bounds (lines : list string) (index line_no : nat)
    (req : string) :
  id_lines_of lines !! index = Some (line_no, req) →
  1 ≤ line_no ≤ length lines
  ∧ (∃ line,
       lines !! (line_no - 1) = Some line
       ∧ req ∈ finditer REQ_ID_PATTERN line)
  ∧ block_start line_no ≤ block_end lines (id_lines_of lines) index
  ∧ block_end lines (id_lines_of lines) index ≤ length lines.
Proof.
  intros Hentry. unfold id_lines_of in *.
  destruct (id_lines_from_lookup _ _ _ _ _ Hentry) as [Hrange Hline].
  split; [lia|]. split; [done|].
  unfold block_start, block_end.
  destruct (id_lines_from 1 lines !! (index + 1)) as [[next_line r]|] eqn:Hnext.
  - pose proof (id_lines_from_ordered lines 1 index (index + 1) _ _
                  ltac:(lia) Hentry Hnext) as Hle.
    apply id_lines_from_lookup in Hnext as [Hrange' _]. simpl in Hle. lia.
  - lia.
Qed.

Lemma block_bounds_witness :
  id_lines_of ["FR-001 shall"; "no identifier"; "FR-002 and FR-003"; "end"]
    !! 1
  = Some (3, "FR-002")
  ∧ 1 ≤ 3 ≤ length ["FR-001 shall"; "no identifier"; "FR-002 and FR-003"; "end"]
  ∧ (∃ line,
       ["FR-001 shall"; "no identifier"; "FR-002 and FR-003"; "end"] !! (3 - 1)
       = Some line
       ∧ "FR-002" ∈ finditer REQ_ID_PATTERN line)
  ∧ block_start 3
    ≤ block_end ["FR-001 shall"; "no identifier"; "FR-002 and FR-003"; "end"]
        (id_lines_of
           ["FR-001 shall"; "no identifier"; "FR-002 and FR-003"; "end"]) 1
  ∧ block_end ["FR-001 shall"; "no identifier"; "FR-002 and FR-003"; "end"]
      (id_lines_of
         ["FR-001 shall"; "no identifier"; "FR-002 and FR-003"; "end"]) 1
    ≤ length ["FR-001 shall"; "no identifier"; "FR-002 and FR-003"; "end"].
Proof.
  split; [reflexivity|].
  exact (block_bounds
           ["FR-001 shall"; "no identifier"; "FR-002 and FR-003"; "end"]
           1 3 "FR-002" eq_refl).
Defined.
